(** * NoteTakingApp: the note store and the auth gateway

    A shallow embedding of [src/models/note.py], [src/routes/note.py] and
    [src/routes/auth.py].  Python strings are Rocq strings whose characters
    are read as the code points below 256; the request's JSON body is a
    finite map from keys to values; the [notes] and [users] tables are lists
    of rows in insertion order; [datetime.utcnow] is a stream of readings
    consumed one call at a time. *)

From Stdlib Require Import Ascii NArith Sorting.Sorted.
From stdpp Require Import base option list strings gmap sorting.

Local Open Scope char_scope.
Local Open Scope stdpp_scope.

(** ** Python [str] methods used by the routes *)

Module Str.

Definition code (c : ascii) : N := N_of_ascii c.

(** [str.isspace] on one character: the control characters 9-13 and 28-31,
    the space, NEL (133) and the no-break space (160). *)
Definition isspace (c : ascii) : bool :=
  let n := code c in
  ((9 <=? n) && (n <=? 13) || (28 <=? n) && (n <=? 32)
   || (n =? 133) || (n =? 160))%N.

(** [str.lower] on one character: A-Z and the accented capitals 192-222
    (the multiplication sign 215 apart) move 32 places up. *)
Definition lower_char (c : ascii) : ascii :=
  let n := code c in
  if ((65 <=? n) && (n <=? 90)
      || (192 <=? n) && (n <=? 222) && negb (n =? 215))%N
  then ascii_of_N (n + 32) else c.

Fixpoint map (f : ascii → ascii) (s : string) : string :=
  match s with
  | EmptyString => EmptyString
  | String c s' => String (f c) (map f s')
  end.

Definition lower : string → string := map lower_char.

Fixpoint lstrip (s : string) : string :=
  match s with
  | EmptyString => EmptyString
  | String c s' => if isspace c then lstrip s' else s
  end.

Definition rstrip (s : string) : string := String.rev (lstrip (String.rev s)).

(** [s.strip()] *)
Definition strip (s : string) : string := rstrip (lstrip s).

(** [s.split(sep)] for a one-character separator: always at least one
    piece, empty pieces kept. *)
Fixpoint split (sep : ascii) (s : string) : list string :=
  match s with
  | EmptyString => [EmptyString]
  | String c s' =>
      if decide (c = sep) then EmptyString :: split sep s'
      else match split sep s' with
           | [] => [String c EmptyString]
           | w :: ws => String c w :: ws
           end
  end.

(** [sep.join(l)] *)
Fixpoint join (sep : string) (l : list string) : string :=
  match l with
  | [] => EmptyString
  | [x] => x
  | x :: l' => x +:+ sep +:+ join sep l'
  end.

(** Truth value of a string: [if s:] *)
Definition truthy (s : string) : bool :=
  match s with EmptyString => false | _ => true end.

(** [needle in hay], as a proposition. *)
Definition contains (hay needle : string) : Prop :=
  ∃ pre post, hay = pre +:+ needle +:+ post.

End Str.

(** ** The database layer the routes call *)

Module Sql.

(** [lower()] of the database: ASCII capitals only. *)
Definition lower_char (c : ascii) : ascii :=
  let n := Str.code c in
  if ((65 <=? n) && (n <=? 90))%N then ascii_of_N (n + 32) else c.

Definition lower : string → string := Str.map lower_char.

(** [text LIKE pattern]: in the pattern [%] stands for any run of
    characters, [_] for any one character, every other character for
    itself.  The routes give no ESCAPE clause, so neither wildcard can be
    quoted. *)
Fixpoint like (pattern text : string) : bool :=
  match pattern with
  | EmptyString => negb (Str.truthy text)
  | String p pattern' =>
      if decide (p = "%"%char) then
        (fix any (t : string) : bool :=
           like pattern' t
           || match t with
              | EmptyString => false
              | String _ t' => any t'
              end) text
      else
        match text with
        | EmptyString => false
        | String c text' =>
            (bool_decide (p = "_"%char) || bool_decide (p = c)) && like pattern' text'
        end
  end.

(** [column.ilike(pattern)], rendered as [lower(column) LIKE lower(pattern)]. *)
Definition ilike (column pattern : string) : bool :=
  like (lower pattern) (lower column).

End Sql.

(** ** src/models/note.py *)

Module Note.

(** A row of the [notes] table.  The two timestamps are readings of
    [datetime.utcnow], counted in microseconds. *)
Record t := mk {
  id : nat;
  title : string;
  content : string;
  tags : string;
  created_at : nat;
  updated_at : nat
}.

#[global] Instance eq_dec : EqDecision t.
Proof. solve_decision. Defined.

End Note.

(** ** Values of a decoded JSON body *)

(** What [request.json] holds under a key, as far as the routes look at it:
    [None], a [str], a [list], or anything else.  [IOther] stands for a
    number, a boolean, an object or (inside a list) a nested list, given by
    the text [str()] returns for it. *)
Inductive item :=
| INone
| IStr (s : string)
| IOther (text : string).

Inductive json :=
| JItem (i : item)
| JList (l : list item).

#[global] Instance item_eq_dec : EqDecision item.
Proof. solve_decision. Defined.

#[global] Instance json_eq_dec : EqDecision json.
Proof. solve_decision. Defined.

(** [str(t)] *)
Definition py_str (t : item) : string :=
  match t with
  | INone => "None"
  | IStr s => s
  | IOther text => text
  end.

(** A call that either returns or raises ([str(e)] is kept). *)
Inductive outcome (A : Type) :=
| Returns (a : A)
| Raises (msg : string).
Arguments Returns {A} a.
Arguments Raises {A} msg.

(** Flask's [(jsonify(body), status)].  [ErrorPage] is the HTML page
    Flask sends for an error that no route turned into JSON, given by the
    name and the description of the error. *)
Inductive body :=
| ErrorBody (error : string)
| ErrorPage (name description : string)
| NoteBody (n : Note.t)
| NotesBody (l : list Note.t)
| EmptyBody.

Record response := Response { resp_body : body; status : nat }.

(** State of the note store: the table, and how many times the clock has
    been read so far. *)
Record store := Store { rows : list Note.t; ticks : nat }.

Definition empty_store : store := Store [] 0.

(** ** src/routes/note.py *)

Abbreviation dict := (gmap string json).

(** [Note.updated_at.desc()] *)
Definition updated_desc (a b : Note.t) : Prop :=
  Note.updated_at b ≤ Note.updated_at a.

#[global] Instance updated_desc_dec : RelDecision updated_desc.
Proof. intros a b. unfold updated_desc. apply _. Defined.

(** [query.order_by(Note.updated_at.desc()).all()] *)
Definition order_by_updated_desc (l : list Note.t) : list Note.t :=
  merge_sort updated_desc l.

(** The id the table gives a new row: one more than the largest in use. *)
Definition next_id (l : list Note.t) : nat := S (max_list (Note.id <$> l)).

(** The ids SQLite can hold and the driver can bind: those below 2^63. *)
Definition id_fits (n : nat) : bool := (N.of_nat n <? 9223372036854775808)%N.
Arguments id_fits : simpl never.

(** The id of a new row.  Past the largest id SQLite can hold it looks
    for an unused one (at random; the model takes the first one from 1 up)
    and the INSERT fails when there is none. *)
Definition new_rowid (l : list Note.t) : option nat :=
  if id_fits (next_id l) then Some (next_id l)
  else snd <$> list_find (λ k, (k ∉ (Note.id <$> l)) ∧ (id_fits k = true))
                 (seq 1 (S (length l))).

(** [Note.query.get(note_id)]: the position and the row, if there is one. *)
Definition query_get (note_id : nat) (l : list Note.t) : option (nat * Note.t) :=
  list_find (λ n, Note.id n = note_id) l.

(** The tags of a request turned into the stored string (the same lines in
    [create_note] and [update_note]):
    [','.join([str(t).strip() for t in tags if t is not None])] for a list,
    [str(tags).strip()] otherwise. *)
Definition tags_to_string (tags : json) : string :=
  match tags with
  | JList l => Str.join "," ((λ t, Str.strip (py_str t)) <$> filter (λ t, t ≠ INone) l)
  | JItem t => Str.strip (py_str t)
  end.

(** What werkzeug's NotFound prints as [str(e)]. *)
Definition not_found_text : string :=
  "404 Not Found: The requested URL was not found on the server. If you entered the URL manually please check your spelling and try again.".

(** The description on werkzeug's page for NotFound, and on the page for an
    exception that no route caught. *)
Definition not_found_description : string :=
  "The requested URL was not found on the server. If you entered the URL manually please check your spelling and try again.".

Definition internal_error_description : string :=
  "The server encountered an internal error and was unable to complete your request. Either the server is overloaded or there is an error in the application.".

(** What the driver raises for an id it cannot bind, as [str(e)]. *)
Definition overflow_text : string :=
  "Python int too large to convert to SQLite INTEGER".

(** What the INSERT raises when no id is left. *)
Definition rowid_full_text : string :=
  "(sqlite3.OperationalError) database or disk is full".

Section NoteRoutes.

(** [datetime.utcnow]: the call number [k] (from 0) returns [utcnow k]. *)
Variable utcnow : nat → nat.

(** What the database makes of a Python value sent for a NOT NULL text
    column: the stored text, or the error the statement raises.  A [str]
    is stored as it is and [None] is refused; the rest depends on the
    driver. *)
Variable bind_text : json → outcome string.

(** [get_notes] *)
Definition get_notes (st : store) : response :=
  Response (NotesBody (order_by_updated_desc (rows st))) 200.

(** [db.session.add(note); db.session.commit()] for a new note.  The
    INSERT takes [created_at] and [updated_at] from their column defaults,
    each a call of its own to [datetime.utcnow], in column order; both are
    made before the statement runs.  A failed statement is rolled back. *)
Definition insert_note (title content : json) (tags : string) (st : store)
  : response * store :=
  let created := utcnow (ticks st) in
  let updated := utcnow (S (ticks st)) in
  match bind_text title, bind_text content with
  | Returns t, Returns c =>
      match new_rowid (rows st) with
      | Some id =>
          let note := Note.mk id t c tags created updated in
          (Response (NoteBody note) 201, Store (rows st ++ [note]) (2 + ticks st))
      | None =>
          (Response (ErrorBody rowid_full_text) 500, Store (rows st) (2 + ticks st))
      end
  | Raises msg, _ | _, Raises msg =>
      (Response (ErrorBody msg) 500, Store (rows st) (2 + ticks st))
  end.

(** [create_note]; [data] is [request.json], [None] for a null body. *)
Definition create_note (data : option dict) (st : store) : response * store :=
  match data with
  | None => (Response (ErrorBody "Title and content are required") 400, st)
  | Some d =>
      match d !! "title", d !! "content" with
      | Some title, Some content =>
          let tags := tags_to_string (default (JItem (IStr "")) (d !! "tags")) in
          insert_note title content tags st
      | _, _ => (Response (ErrorBody "Title and content are required") 400, st)
      end
  end.

(** [get_note].  It has no [try]: the NotFound of [get_or_404] becomes
    werkzeug's 404 page, and the OverflowError the driver raises for an id
    of 2^63 or more, before any query runs, becomes Flask's 500 page. *)
Definition get_note (note_id : nat) (st : store) : response :=
  if id_fits note_id then
    match query_get note_id (rows st) with
    | Some (_, note) => Response (NoteBody note) 200
    | None => Response (ErrorPage "Not Found" not_found_description) 404
    end
  else Response (ErrorPage "Internal Server Error" internal_error_description) 500.

(** [db.session.commit()] after the attributes of a loaded note were
    assigned.  The session writes only attributes whose new value differs
    from the loaded one; when none does, no UPDATE is sent and the row,
    [updated_at] included, stays as it is.  When an UPDATE is sent,
    [onupdate] reads the clock once for [updated_at]. *)
Definition commit_update (i : nat) (note : Note.t) (title content : json)
    (tags : string) (st : store) : response * store :=
  let title_changed := bool_decide (title ≠ JItem (IStr (Note.title note))) in
  let content_changed := bool_decide (content ≠ JItem (IStr (Note.content note))) in
  let tags_changed := bool_decide (tags ≠ Note.tags note) in
  if title_changed || content_changed || tags_changed then
    let now := utcnow (ticks st) in
    match (if title_changed then bind_text title else Returns (Note.title note)),
          (if content_changed then bind_text content else Returns (Note.content note)) with
    | Returns t, Returns c =>
        let note' := Note.mk (Note.id note) t c tags (Note.created_at note) now in
        (Response (NoteBody note') 200, Store (<[i := note']> (rows st)) (1 + ticks st))
    | Raises msg, _ | _, Raises msg =>
        (Response (ErrorBody msg) 500, Store (rows st) (1 + ticks st))
    end
  else (Response (NoteBody note) 200, st).

(** [update_note].  [get_or_404] is called inside the [try], so its
    NotFound, and the OverflowError for an id of 2^63 or more, are caught
    by [except Exception] and answered with 500 and [str(e)]. *)
Definition update_note (note_id : nat) (data : option dict) (st : store)
  : response * store :=
  if id_fits note_id then
    match query_get note_id (rows st) with
    | None => (Response (ErrorBody not_found_text) 500, st)
    | Some (i, note) =>
        match data with
        | None => (Response (ErrorBody "No data provided") 400, st)
        | Some d =>
            if bool_decide (d = ∅) then
              (Response (ErrorBody "No data provided") 400, st)
            else
              let title := default (JItem (IStr (Note.title note))) (d !! "title") in
              let content := default (JItem (IStr (Note.content note))) (d !! "content") in
              let tags :=
                match d !! "tags" with
                | Some tags => tags_to_string tags
                | None => Note.tags note
                end in
              commit_update i note title content tags st
        end
    end
  else (Response (ErrorBody overflow_text) 500, st).

(** [delete_note], with the same [try] around [get_or_404]. *)
Definition delete_note (note_id : nat) (st : store) : response * store :=
  if id_fits note_id then
    match query_get note_id (rows st) with
    | None => (Response (ErrorBody not_found_text) 500, st)
    | Some (i, _) => (Response EmptyBody 204, Store (delete i (rows st)) (ticks st))
    end
  else (Response (ErrorBody overflow_text) 500, st).

End NoteRoutes.

(** [search_notes]; [q] is [request.args.get('q')]. *)
Definition search_notes (q : option string) (st : store) : response :=
  let query := Str.strip (default "" q) in
  if negb (Str.truthy query) then Response (NotesBody []) 200
  else
    let pattern := "%" +:+ query +:+ "%" in
    let notes :=
      order_by_updated_desc
        (filter (λ n, Sql.ilike (Note.title n) pattern || Sql.ilike (Note.content n) pattern)
                (rows st)) in
    Response (NotesBody notes) 200.

(** The loop of [filter_notes_by_tags] that drops repeated tags: [tags] is
    built in order, [seen] holds the lowercased tags met so far. *)
Fixpoint dedupe_loop (requested : list string) (tags : list string) (seen : gset string)
  : list string :=
  match requested with
  | [] => tags
  | t :: requested' =>
      if Str.truthy t && bool_decide (Str.lower t ∉ seen)
      then dedupe_loop requested' (tags ++ [t]) ({[Str.lower t]} ∪ seen)
      else dedupe_loop requested' tags seen
  end.

(** The tags asked for: [tag] is [request.args.getlist('tag')], [tags_param]
    is [request.args.get('tags')]. *)
Definition requested_tags (tag : list string) (tags_param : option string) : list string :=
  let requested :=
    (Str.strip <$> filter (λ t, Str.truthy t && Str.truthy (Str.strip t)) tag)
    ++ match tags_param with
       | Some p =>
           if Str.truthy p
           then Str.strip <$> filter (λ t, Str.truthy (Str.strip t)) (Str.split "," p)
           else []
       | None => []
       end in
  dedupe_loop requested [] ∅.

(** [Note.query.filter(or_( *patterns)).order_by(...).all()] for the tags
    kept. *)
Definition query_by_tags (tags : list string) (l : list Note.t) : list Note.t :=
  let patterns := (λ t n, Sql.ilike (Note.tags n) ("%" +:+ t +:+ "%")) <$> tags in
  order_by_updated_desc (filter (λ n, existsb (λ p, p n) patterns) l).

(** [filter_notes_by_tags] *)
Definition filter_notes_by_tags (tag : list string) (tags_param : option string)
    (st : store) : response :=
  let tags := requested_tags tag tags_param in
  match tags with
  | [] => Response (NotesBody []) 200
  | _ => Response (NotesBody (query_by_tags tags (rows st))) 200
  end.

(** ** src/routes/auth.py *)

(** An attribute that may be missing, present but not callable, or a method. *)
Inductive attribute (A : Type) :=
| NoAttr
| NotCallable
| Method (f : A).
Arguments NoAttr {A}.
Arguments NotCallable {A}.
Arguments Method {A} f.

(** Modelled from the spec: the User entity of [src/models/user.py], which
    the routes import but the repository does not hold.  A user has an [id],
    a [username], an [email], and exposes whichever password attributes its
    class defines; [login] finds out by [hasattr] which ones are there.
    [None] in [u_password_hash] and [u_password] means the attribute is
    missing, [Some v] that it is there with value [v] ([v = None] for
    Python's [None]). *)
Record User := mkUser {
  u_id : item;
  u_username : option string;
  u_email : option string;
  u_check_password : attribute (string → outcome bool);
  u_password_hash : option (option string);
  u_password : option (option string);
  u_to_dict : outcome (list (string * item))
}.

(** Modelled from the spec: which of the two lookup columns the User class
    has ([getattr(User, field)] raises for a missing one). *)
Record user_class := UserClass { has_username : bool; has_email : bool }.

Inductive auth_body :=
| AuthError (error : string) (detail : option string)
| AuthOk (message : string) (user : list (string * item))
| AuthPage (name description : string).

Record auth_response := AuthResponse { auth_body_of : auth_body; auth_status : nat }.

(** The three ways [login] can check a password. *)
Inductive strategy :=
| ByCheckPassword
| ByPasswordHash
| ByPlainPassword.

#[global] Instance strategy_eq_dec : EqDecision strategy.
Proof. solve_decision. Defined.

(** What the [if]/[elif] chain of [login] leaves in [valid]. *)
Inductive verdict :=
| Valid (valid : bool)
| VerifierRaised (msg : string)
| NoVerifier.

(** [valid = check(...)] for a check that may raise. *)
Definition verdict_of (result : outcome bool) : verdict :=
  match result with
  | Returns valid => Valid valid
  | Raises msg => VerifierRaised msg
  end.

(** [User.query.filter(getattr(User, field) == value).first()] inside its
    [try]: [None] when the class has no such column. *)
Definition first_by (has_column : bool) (column : User → option string)
    (value : string) (users : list User) : option User :=
  if has_column then head (filter (λ u, column u = Some value) users) else None.

(** The [for field in ('username', 'email')] loop of [login]. *)
Definition find_user (cls : user_class) (username : string) (users : list User)
  : option User :=
  match first_by (has_username cls) u_username username users with
  | Some user => Some user
  | None => first_by (has_email cls) u_email username users
  end.

Section AuthRoutes.

(** The import of [src.models.user]: the class, or the error raised. *)
Variable user_model : outcome user_class.

(** [werkzeug.security.check_password_hash(pwhash, password)] *)
Variable check_password_hash : option string → string → outcome bool.

(** Lines 112-122 of [register]: build [User(username=..., email=...)],
    hash the password through [set_password] or [generate_password_hash],
    add and commit; the persisted row, or the error raised on the way. *)
Variable create_user : string → option string → string → list User → outcome User.

(** The [if]/[elif]/[else] chain of [login], with the list of checks that
    were run. *)
Definition verify (user : User) (password : string) : list strategy * verdict :=
  match u_check_password user with
  | Method check_password => ([ByCheckPassword], verdict_of (check_password password))
  | _ =>
      match u_password_hash user with
      | Some pwhash =>
          ([ByPasswordHash], verdict_of (check_password_hash pwhash password))
      | None =>
          match u_password user with
          | Some stored => ([ByPlainPassword], Valid (bool_decide (stored = Some password)))
          | None => ([], NoVerifier)
          end
      end
  end.

(** [user.to_dict()], or the two basic fields when it raises. *)
Definition user_info (user : User) : list (string * item) :=
  match u_to_dict user with
  | Returns info => info
  | Raises _ =>
      [("id", u_id user); ("username", from_option IStr INone (u_username user))]
  end.

(** [login]: the response and the password checks that were run.
    [username] and [password] are the two entries of the JSON body, taken
    to be strings, [None] when missing or null. *)
Definition login (username password : option string) (users : list User)
  : auth_response * list strategy :=
  match username, password with
  | Some username, Some password =>
      if negb (Str.truthy username) || negb (Str.truthy password) then
        (AuthResponse (AuthError "username and password are required" None) 400, [])
      else
        match user_model with
        | Raises msg =>
            (AuthResponse (AuthError "User model not available" (Some msg)) 500, [])
        | Returns cls =>
            match find_user cls username users with
            | None => (AuthResponse (AuthError "Invalid credentials" None) 401, [])
            | Some user =>
                match verify user password with
                | (ran, NoVerifier) =>
                    (AuthResponse
                       (AuthError "No password verifier available for User model" None)
                       500, ran)
                | (ran, VerifierRaised msg) =>
                    (AuthResponse (AuthError "Authentication failed" (Some msg)) 500, ran)
                | (ran, Valid false) =>
                    (AuthResponse (AuthError "Invalid credentials" None) 401, ran)
                | (ran, Valid true) =>
                    (AuthResponse (AuthOk "Login successful" (user_info user)) 200, ran)
                end
            end
        end
  | _, _ => (AuthResponse (AuthError "username and password are required" None) 400, [])
  end.

(** The uniqueness query of [register].  [User.email == None] is rendered
    as [email IS NULL], so a missing [email] is compared like a value.
    When building the first query raises because the class has no [email]
    column, the [except] branch asks by username alone; without a
    [username] column that query raises too, outside any [try]. *)
Definition existing_user (cls : user_class) (username : string)
    (email : option string) (users : list User) : outcome (option User) :=
  if has_username cls then
    if has_email cls then
      Returns (head (filter (λ u, u_username u = Some username ∨ u_email u = email) users))
    else
      Returns (head (filter (λ u, u_username u = Some username) users))
  else Raises "Entity namespace for User has no property username".

(** [register]: the response and the [users] table afterwards.  An error
    before the commit is rolled back; [user.to_dict()] is called after it,
    so when that raises, the [except] answers 500 while the row stays. *)
Definition register (username email password : option string) (users : list User)
  : auth_response * list User :=
  match username, password with
  | Some username, Some password =>
      if negb (Str.truthy username) || negb (Str.truthy password) then
        (AuthResponse (AuthError "username and password are required" None) 400, users)
      else
        match user_model with
        | Raises msg =>
            (AuthResponse (AuthError "User model not available" (Some msg)) 500, users)
        | Returns cls =>
            match existing_user cls username email users with
            | Raises msg =>
                (AuthResponse (AuthPage "Internal Server Error" internal_error_description)
                   500, users)
            | Returns (Some _) =>
                (AuthResponse
                   (AuthError "User with that username or email already exists" None)
                   400, users)
            | Returns None =>
                match create_user username email password users with
                | Returns user =>
                    match u_to_dict user with
                    | Returns info =>
                        (AuthResponse (AuthOk "User created" info) 201, users ++ [user])
                    | Raises msg =>
                        (AuthResponse (AuthError "Failed to create user" (Some msg)) 500,
                         users ++ [user])
                    end
                | Raises msg =>
                    (AuthResponse (AuthError "Failed to create user" (Some msg)) 500,
                     users)
                end
            end
        end
  | _, _ => (AuthResponse (AuthError "username and password are required" None) 400, users)
  end.

End AuthRoutes.

(** ** Runs of the note store *)

(** The three requests that can change the store. *)
Inductive request :=
| Create (data : option dict)
| Update (note_id : nat) (data : option dict)
| Delete (note_id : nat).

Section Runs.

Variable utcnow : nat → nat.
Variable bind_text : json → outcome string.

Definition handle (req : request) (st : store) : response * store :=
  match req with
  | Create data => create_note utcnow bind_text data st
  | Update note_id data => update_note utcnow bind_text note_id data st
  | Delete note_id => delete_note note_id st
  end.

(** The stores that some sequence of requests leads to, from the empty one. *)
Inductive reachable : store → Prop :=
| reachable_empty : reachable empty_store
| reachable_step req st : reachable st → reachable (handle req st).2.

End Runs.

(** What every run keeps true of a stored note: [created_at] is not after
    [updated_at], and it is one of the readings of the clock taken so far. *)
Definition stamped (utcnow : nat → nat) (st : store) (note : Note.t) : Prop :=
  Note.created_at note ≤ Note.updated_at note
  ∧ ∃ k, k < ticks st ∧ Note.created_at note = utcnow k.

(** ** The specification's wording, to compare the routes with *)

(** [hay] contains [needle] as a substring up to the case of the ASCII
    letters, the only case the database folds. *)
Definition contains_ci (hay needle : string) : Prop :=
  Str.contains (Sql.lower hay) (Sql.lower needle).


(** "Deduplicates case-insensitively (first occurrence's casing is kept)". *)
Fixpoint spec_dedupe (l : list string) : list string :=
  match l with
  | [] => []
  | t :: l' => t :: filter (λ u, Str.lower u ≠ Str.lower t) (spec_dedupe l')
  end.

(** "Merges both sources, trims each, drops empties, deduplicates". *)
Definition spec_requested_tags (tag : list string) (tags_param : option string)
  : list string :=
  let merged := tag ++ from_option (Str.split ",") [] tags_param in
  spec_dedupe (filter (λ t, t ≠ "") (Str.strip <$> merged)).

(** "Each element is stringified, whitespace-trimmed, null entries dropped,
    and the results joined with a comma". *)
Definition spec_tag_string (l : list item) : string :=
  Str.join ","
    (omap (λ t, match t with INone => None | _ => Some (Str.strip (py_str t)) end) l).

(** "A verification capability on the user entity, else a hashed-password
    field, else a plaintext password field". *)
Definition spec_strategy (user : User) : option strategy :=
  match u_check_password user, u_password_hash user, u_password user with
  | Method _, _, _ => Some ByCheckPassword
  | _, Some _, _ => Some ByPasswordHash
  | _, _, Some _ => Some ByPlainPassword
  | _, _, _ => None
  end.

(** "The submitted values equal the existing ones" fails: some entry of
    the body differs from what the note holds. *)
Definition submitted_differs (d : dict) (note : Note.t) : Prop :=
  (∃ v, d !! "title" = Some v ∧ v ≠ JItem (IStr (Note.title note)))
  ∨ (∃ v, d !! "content" = Some v ∧ v ≠ JItem (IStr (Note.content note)))
  ∨ (∃ v, d !! "tags" = Some v ∧ tags_to_string v ≠ Note.tags note).

(** ** Inputs used in the examples below *)

(** A clock that ticks ten microseconds between two readings. *)
Definition clock10 (k : nat) : nat := 10 * k.

(** A driver that stores a [str] and refuses everything else. *)
Definition strict_bind (v : json) : outcome string :=
  match v with
  | JItem (IStr s) => Returns s
  | _ => Raises "Error binding parameter"
  end.

Definition note_of_tags (tags : string) (updated : nat) : Note.t :=
  Note.mk 1 "t" "c" tags updated updated.

(** The body [{title: "T", content: "C", tags: ["a", " b ", null, "a"]}]. *)
Definition body_with_tag_list : dict :=
  {[ "title" := JItem (IStr "T");
     "content" := JItem (IStr "C");
     "tags" := JList [IStr "a"; IStr " b "; INone; IStr "a"] ]}.

(** The body [{title: "T", content: "C", tags: " home "}]. *)
Definition body_with_tag_string : dict :=
  {[ "title" := JItem (IStr "T");
     "content" := JItem (IStr "C");
     "tags" := JItem (IStr " home ") ]}.

(** The body [{title: "T", content: "C"}]. *)
Definition body_without_tags : dict :=
  {[ "title" := JItem (IStr "T"); "content" := JItem (IStr "C") ]}.

(** The body [{title: "", content: ""}]. *)
Definition body_with_empty_strings : dict :=
  {[ "title" := JItem (IStr ""); "content" := JItem (IStr "") ]}.

(** The bodies [{title: "T"}] and [{title: "X"}] of an update. *)
Definition body_title_T : dict := {[ "title" := JItem (IStr "T") ]}.
Definition body_title_X : dict := {[ "title" := JItem (IStr "X") ]}.

(** The store after one note was created from [body_with_tag_list]. *)
Definition store_one_note : store :=
  (create_note clock10 strict_bind (Some body_with_tag_list) empty_store).2.

(** A User class with both lookup columns, and one persisted user whose
    class keeps a password hash. *)
Definition full_class : user_class := UserClass true true.

Definition alice : User :=
  mkUser (IOther "1") (Some "alice") (Some "alice@example.org")
         NoAttr (Some (Some "hash-of-secret")) None (Raises "no to_dict").

(** A stand-in for werkzeug's hash check: only "secret" matches the hash. *)
Definition sample_check_hash (pwhash : option string) (password : string) : outcome bool :=
  match pwhash with
  | Some h => Returns (bool_decide (h = "hash-of-" +:+ password))
  | None => Raises "'NoneType' object has no attribute 'count'"
  end.

(** A stand-in for the creation of a user, with the same kind of hash. *)
Definition sample_create_user (username : string) (email : option string)
    (password : string) (users : list User) : outcome User :=
  Returns (mkUser (IOther "2") (Some username) email NoAttr
             (Some (Some ("hash-of-" +:+ password))) None
             (Returns [("id", IOther "2"); ("username", IStr username)])).

(** The same for a User class without a working [to_dict]. *)
Definition sample_create_user_no_dict (username : string) (email : option string)
    (password : string) (users : list User) : outcome User :=
  Returns (mkUser (IOther "2") (Some username) email NoAttr
             (Some (Some ("hash-of-" +:+ password))) None (Raises "no to_dict")).

(** A persisted user whose row holds no password hash. *)
Definition dana : User :=
  mkUser (IOther "4") (Some "dana") (Some "dana@example.org")
         NoAttr (Some None) None (Raises "no to_dict").

(** ** Further notions used for the routes as a whole *)

(** [updated_at] is one of the readings of the clock taken so far. *)
Definition touched (utcnow : nat → nat) (st : store) (note : Note.t) : Prop :=
  ∃ k, k < ticks st ∧ Note.updated_at note = utcnow k.

(** No two rows of the table have the same id. *)
Definition unique_ids (st : store) : Prop := NoDup (Note.id <$> rows st).

(** The store after a second note was created from [body_without_tags]. *)
Definition store_two_notes : store :=
  (create_note clock10 strict_bind (Some body_without_tags) store_one_note).2.

(** The body [{title: "T", content: "C", tags: null}]. *)
Definition body_with_null_tags : dict :=
  {[ "title" := JItem (IStr "T"); "content" := JItem (IStr "C"); "tags" := JItem INone ]}.

(** A persisted user who registered without an email. *)
Definition carol : User :=
  mkUser (IOther "3") (Some "carol") None
         NoAttr (Some (Some "hash-of-pw")) None (Raises "no to_dict").

(** * Properties *)

(** ** Strings *)

Section StringFacts.

Lemma app_cons c (s t : string) : String c s +:+ t = String c (s +:+ t).
Proof. reflexivity. Qed.

Lemma app_empty_l (s : string) : "" +:+ s = s.
Proof. reflexivity. Qed.

Lemma app_empty_r (s : string) : s +:+ "" = s.
Proof. induction s as [|c s IH]; [done|]. by rewrite app_cons, IH. Qed.

Lemma app_assoc_str (s t u : string) : (s +:+ t) +:+ u = s +:+ t +:+ u.
Proof. induction s as [|c s IH]; [done|]. by rewrite !app_cons, IH. Qed.

Lemma map_app f (s t : string) : Str.map f (s +:+ t) = Str.map f s +:+ Str.map f t.
Proof. induction s as [|c s IH]; [done|]. rewrite app_cons. simpl. by rewrite IH. Qed.

Lemma truthy_true (s : string) : Str.truthy s = true ↔ s ≠ "".
Proof. destruct s; simpl; split; congruence. Qed.

Lemma truthy_false (s : string) : Str.truthy s = false ↔ s = "".
Proof. destruct s; simpl; split; congruence. Qed.

Lemma contains_refl (s : string) : Str.contains s s.
Proof. exists "", "". by rewrite app_empty_r. Qed.

Lemma contains_cons c (hay needle : string) :
  Str.contains hay needle → Str.contains (String c hay) needle.
Proof. intros (pre & post & ->). by exists (String c pre), post. Qed.

End StringFacts.

(** ** LIKE patterns *)

Section LikeFacts.

Lemma like_percent (p t : string) :
  Sql.like (String "%" p) t
  = Sql.like p t
    || match t with
       | EmptyString => false
       | String _ t' => Sql.like (String "%" p) t'
       end.
Proof. destruct t; reflexivity. Qed.

Lemma like_percent_split (p t : string) :
  Sql.like (String "%" p) t = true
  ↔ ∃ pre post, t = pre +:+ post ∧ Sql.like p post = true.
Proof.
  induction t as [|c t IH]; rewrite like_percent.
  - rewrite orb_false_r. split.
    + intros H. by exists "", "".
    + intros (pre & post & Heq & H). destruct pre; [|done].
      rewrite app_empty_l in Heq. by subst post.
  - rewrite orb_true_iff, IH. split.
    + intros [H | (pre & post & -> & H)].
      * by exists "", (String c t).
      * by exists (String c pre), post.
    + intros (pre & post & Heq & H). destruct pre as [|c' pre].
      * left. rewrite app_empty_l in Heq. by subst post.
      * right. rewrite app_cons in Heq. injection Heq as -> ->. eauto.
Qed.









End LikeFacts.

(** ** Ordering of query results *)

Section Ordering.

#[local] Instance updated_desc_total : Total updated_desc.
Proof. intros a b. unfold updated_desc. lia. Qed.

#[local] Instance updated_desc_trans : Transitive updated_desc.
Proof. intros a b c. unfold updated_desc. lia. Qed.

(** Every row of the result is at least as recent as all rows after it. *)
Lemma order_by_sorted (l : list Note.t) :
  StronglySorted updated_desc (order_by_updated_desc l).
Proof. apply StronglySorted_merge_sort; apply _. Qed.

Lemma order_by_perm (l : list Note.t) : order_by_updated_desc l ≡ₚ l.
Proof. apply merge_sort_Permutation. Qed.

Lemma elem_of_order_by (n : Note.t) (l : list Note.t) :
  n ∈ order_by_updated_desc l ↔ n ∈ l.
Proof. by rewrite order_by_perm. Qed.

End Ordering.

(** ** Search and tag filter on wildcard-free input *)

Section Queries.




(** A blank query gives the empty list, whatever the table holds. *)
Lemma search_notes_blank (q : option string) (st : store) :
  Str.strip (default "" q) = "" →
  search_notes q st = Response (NotesBody []) 200.
Proof. intros H. unfold search_notes. by rewrite H. Qed.



End Queries.

(** Refutes [Str.contains hay needle] for two given strings, by walking
    through the places where [needle] could start. *)
Ltac refute_contains :=
  let H := fresh "H" in
  let pre := fresh "pre" in
  let post := fresh "post" in
  intros (pre & post & H); vm_compute in H;
  repeat (destruct pre as [|? pre]; [discriminate H | injection H as _ H]);
  destruct pre; discriminate H.

(** ** Examples of the string helpers and of LIKE *)

Example strip_ex : Str.strip "  b c  " = "b c".
Proof. reflexivity. Qed.

Example split_ex : Str.split "," "a,,b," = ["a"; ""; "b"; ""].
Proof. reflexivity. Qed.

Example join_ex : Str.join "," ["a"; "b"; "a"] = "a,b,a".
Proof. reflexivity. Qed.

Example lower_ex : Str.lower "Art_%Z" = "art_%z".
Proof. reflexivity. Qed.

Example ilike_art_smart : Sql.ilike "smart,outdoors" "%art%" = true.
Proof. reflexivity. Qed.

Example ilike_art_work : Sql.ilike "work" "%art%" = false.
Proof. reflexivity. Qed.

(** Requesting "art" returns a note tagged "smart,outdoors". *)
Example filter_art_smart :
  filter_notes_by_tags ["art"] None (Store [note_of_tags "smart,outdoors" 5] 2)
  = Response (NotesBody [note_of_tags "smart,outdoors" 5]) 200
  ∧ contains_ci "smart,outdoors" "art".
Proof. split; [reflexivity|]. by exists "sm", ",outdoors". Qed.

(** ** C1: the tag filter *)

(** C1, at a requested tag that is a LIKE wildcard.  The claim says the tag
    filter returns exactly the notes whose tag string contains a requested
    tag as a case-insensitive substring.  Asked for the tag "_", the route
    returns a note tagged "work", which does not contain "_": the tag is
    pasted into the LIKE pattern unescaped, where "_" stands for any
    character. *)
Theorem C1_underscore_tag_returns_unrelated_note :
  requested_tags ["_"] None = ["_"]
  ∧ filter_notes_by_tags ["_"] None (Store [note_of_tags "work" 5] 2)
    = Response (NotesBody [note_of_tags "work" 5]) 200
  ∧ ¬ contains_ci "work" "_".
Proof.
  split; [reflexivity|]. split; [reflexivity|]. unfold contains_ci. refute_contains.
Qed.

(** The same with "%", which returns every note, untagged ones included. *)
Lemma percent_tag_returns_every_note (st : store) :
  filter_notes_by_tags ["%"] None st
  = Response (NotesBody (order_by_updated_desc (rows st))) 200.
Proof.
  change (filter_notes_by_tags ["%"] None st)
    with (Response (NotesBody (query_by_tags ["%"] (rows st))) 200).
  unfold query_by_tags. do 2 f_equal. f_equal.
  induction (rows st) as [|n l IH]; [done|].
  rewrite filter_cons_True; [by rewrite IH|].
  simpl. rewrite orb_false_r. unfold Sql.ilike.
  change (Sql.lower ("%" +:+ "%" +:+ "%")) with (String "%" "%%").
  apply Is_true_true, like_percent_split. exists (Sql.lower (Note.tags n)), "".
  by rewrite app_empty_r.
Qed.

(** ** C4: search *)

(** C4, at a query that is a LIKE wildcard.  The claim says a non-blank
    search returns exactly the notes whose title or content contains the
    trimmed query as a case-insensitive substring.  The query "_" returns a
    note whose title is "a" and whose content is "b". *)
Theorem C4_underscore_query_returns_unrelated_note :
  search_notes (Some "_") (Store [Note.mk 1 "a" "b" "" 5 5] 2)
  = Response (NotesBody [Note.mk 1 "a" "b" "" 5 5]) 200
  ∧ ¬ contains_ci "a" "_"
  ∧ ¬ contains_ci "b" "_".
Proof.
  split; [reflexivity|]. unfold contains_ci. split; refute_contains.
Qed.

(** The blank queries of the specification. *)
Example search_blank_ex (st : store) :
  search_notes (Some "") st = Response (NotesBody []) 200
  ∧ search_notes (Some "   ") st = Response (NotesBody []) 200
  ∧ search_notes None st = Response (NotesBody []) 200.
Proof. repeat split; by apply search_notes_blank. Qed.

(** ** C3: the requested tags *)

Section RequestedTags.

Lemma strip_empty_of_empty (t : string) : Str.strip t ≠ "" → t ≠ "".
Proof. by intros H ->. Qed.

(** The comprehension over [getlist('tag')] trims and drops empties. *)
Lemma comprehension_tag (l : list string) :
  Str.strip <$> filter (λ t, Str.truthy t && Str.truthy (Str.strip t)) l
  = filter (λ t, t ≠ "") (Str.strip <$> l).
Proof.
  induction l as [|t l IH]; [done|]. rewrite fmap_cons, !filter_cons, <- IH.
  destruct (decide (Str.strip t ≠ "")) as [Hs | Hs].
  - rewrite decide_True; [done|].
    apply andb_True. split; apply Is_true_true, truthy_true; [|done].
    by apply strip_empty_of_empty.
  - rewrite decide_False; [done|].
    rewrite andb_True, !Is_true_true, !truthy_true. tauto.
Qed.

(** So does the comprehension over the pieces of [tags]. *)
Lemma comprehension_tags (l : list string) :
  Str.strip <$> filter (λ t, Str.truthy (Str.strip t)) l
  = filter (λ t, t ≠ "") (Str.strip <$> l).
Proof.
  induction l as [|t l IH]; [done|]. rewrite fmap_cons, !filter_cons, <- IH.
  destruct (decide (Str.strip t ≠ "")) as [Hs | Hs].
  - rewrite decide_True; [done|]. by apply Is_true_true, truthy_true.
  - rewrite decide_False; [done|]. by rewrite Is_true_true, truthy_true.
Qed.

Lemma split_empty (sep : ascii) : Str.split sep "" = [""].
Proof. reflexivity. Qed.

(** Filtering by a property of the lowercased tag commutes with
    deduplication. *)
Lemma spec_dedupe_filter (Q : string → Prop) `{!∀ t, Decision (Q t)} (l : list string) :
  (∀ t u, Str.lower t = Str.lower u → Q t → Q u) →
  filter Q (spec_dedupe l) = spec_dedupe (filter Q l).
Proof.
  intros HQ. induction l as [|t l IH]; [done|]. simpl.
  rewrite !filter_cons. destruct (decide (Q t)) as [Ht | Ht]; simpl.
  - rewrite <- IH. f_equal. rewrite !list_filter_filter.
    apply list_filter_iff. tauto.
  - rewrite <- IH, list_filter_filter. apply list_filter_iff.
    intros u. split; [tauto|]. intros Hu. split; [done|].
    intros Heq. apply Ht. by apply (HQ u).
Qed.

(** The loop adds to [tags], in order, the first occurrence of every tag
    whose lowercase form is not in [seen]. *)
Lemma dedupe_loop_spec (requested tags : list string) (seen : gset string) :
  dedupe_loop requested tags seen
  = tags ++ spec_dedupe (filter (λ t, t ≠ "" ∧ Str.lower t ∉ seen) requested).
Proof.
  revert tags seen. induction requested as [|t req IH]; intros tags seen; simpl.
  - by rewrite app_nil_r.
  - rewrite filter_cons. destruct (decide (t ≠ "" ∧ Str.lower t ∉ seen)) as [[Ht Hs] | Hno].
    + apply truthy_true in Ht. rewrite Ht, bool_decide_eq_true_2 by done. simpl.
      rewrite IH, <- app_assoc. simpl. do 2 f_equal.
      rewrite spec_dedupe_filter by (intros ?? ->; done).
      rewrite list_filter_filter. f_equal. apply list_filter_iff.
      intros u. rewrite not_elem_of_union, not_elem_of_singleton. tauto.
    + destruct (Str.truthy t) eqn:Ht; simpl; [|by rewrite IH].
      apply truthy_true in Ht. rewrite bool_decide_eq_false_2, IH; [done|]. tauto.
Qed.

Lemma filter_unseen_nonempty (seen : gset string) (l : list string) :
  seen = ∅ →
  filter (λ t, t ≠ "" ∧ Str.lower t ∉ seen) (filter (λ t, t ≠ "") l)
  = filter (λ t, t ≠ "") l.
Proof.
  intros ->. rewrite list_filter_filter. apply list_filter_iff.
  intros t. pose proof (not_elem_of_empty (C:=gset string) (Str.lower t)). tauto.
Qed.

Lemma requested_tags_spec (tag : list string) (tags_param : option string) :
  requested_tags tag tags_param = spec_requested_tags tag tags_param.
Proof.
  unfold requested_tags, spec_requested_tags. rewrite dedupe_loop_spec. simpl.
  f_equal. rewrite fmap_app, !filter_app, comprehension_tag.
  rewrite filter_unseen_nonempty by done. f_equal.
  destruct tags_param as [p|]; [|done]. simpl.
  destruct (Str.truthy p) eqn:Hp.
  - by rewrite comprehension_tags, filter_unseen_nonempty.
  - apply truthy_false in Hp as ->. reflexivity.
Qed.

(** What deduplication keeps: no two tags of the result have the same
    lowercase form. *)
Lemma spec_dedupe_NoDup (l : list string) : NoDup (Str.lower <$> spec_dedupe l).
Proof.
  induction l as [|t l IH]; simpl; [constructor|]. constructor.
  - intros (u & Heq & Hu)%list_elem_of_fmap. apply list_elem_of_filter in Hu as [Hne _].
    by apply Hne.
  - apply (NoDup_fmap_2_strong Str.lower).
    + intros u v Hu%list_elem_of_filter Hv%list_elem_of_filter Heq.
      destruct Hu as [_ Hu], Hv as [_ Hv].
      apply list_elem_of_lookup in Hu as [i Hi], Hv as [j Hj].
      assert (i = j) as <-.
      { eapply NoDup_lookup; [exact IH| |]; rewrite list_lookup_fmap.
        - by rewrite Hi.
        - by rewrite Hj, Heq. }
      congruence.
    + apply NoDup_filter. by eapply NoDup_fmap_1.
Qed.

(** Every tag asked for is represented, up to case, in the result. *)
Lemma spec_dedupe_covers (l : list string) (t : string) :
  t ∈ l → Str.lower t ∈ Str.lower <$> spec_dedupe l.
Proof.
  induction l as [|u l IH]; [by intros ?%elem_of_nil|]. simpl.
  intros [-> | Ht]%elem_of_cons; [left|].
  destruct (decide (Str.lower t = Str.lower u)) as [-> | Hne]; [left|]. right.
  apply IH in Ht as (v & Heq & Hv)%list_elem_of_fmap.
  apply list_elem_of_fmap. exists v. split; [done|].
  apply list_elem_of_filter. split; [congruence | done].
Qed.

(** The casing kept is that of the first occurrence. *)
Lemma spec_dedupe_first (l1 l2 : list string) (t : string) :
  Str.lower t ∉ Str.lower <$> l1 → t ∈ spec_dedupe (l1 ++ t :: l2).
Proof.
  induction l1 as [|u l1 IH]; simpl; [left|]. intros Hnot.
  apply not_elem_of_cons in Hnot as [Hne Hnot]. right.
  apply list_elem_of_filter. split; [done | auto].
Qed.

End RequestedTags.

(** C3: the requested tags are the values of the repeated [tag] parameter
    followed by the comma-split values of [tags], each trimmed, empties
    dropped, deduplicated case-insensitively with the first occurrence's
    casing ([tag=Art&tag=art] asks for "Art" alone); when none is left the
    route returns the empty list. *)
Theorem C3_requested_tags (tag : list string) (tags_param : option string) (st : store) :
  requested_tags tag tags_param = spec_requested_tags tag tags_param
  ∧ NoDup (Str.lower <$> requested_tags tag tags_param)
  ∧ requested_tags ["Art"; "art"] None = ["Art"]
  ∧ (spec_requested_tags tag tags_param = [] →
     filter_notes_by_tags tag tags_param st = Response (NotesBody []) 200).
Proof.
  split; [apply requested_tags_spec|]. split.
  { rewrite requested_tags_spec. apply spec_dedupe_NoDup. }
  split; [reflexivity|].
  intros Hnone. unfold filter_notes_by_tags. by rewrite requested_tags_spec, Hnone.
Qed.

(** C3 on a request whose values are blank or empty. *)
Lemma C3_requested_tags_witness :
  spec_requested_tags [" "; ""] (Some " , ,") = []
  ∧ filter_notes_by_tags [" "; ""] (Some " , ,") (Store [note_of_tags "work" 5] 2)
    = Response (NotesBody []) 200.
Proof.
  split; [reflexivity|].
  apply (C3_requested_tags [" "; ""] (Some " , ,") (Store [note_of_tags "work" 5] 2)).
  reflexivity.
Defined.

(** ** C2: tags at creation *)

Section CreateTags.

Lemma tags_to_string_list (l : list item) :
  tags_to_string (JList l) = spec_tag_string l.
Proof.
  unfold tags_to_string, spec_tag_string. f_equal.
  induction l as [|t l IH]; [done|]. rewrite filter_cons.
  destruct t; [rewrite decide_False by (intros Hne; by apply Hne)
              | rewrite decide_True by done ..]; simpl; try f_equal; apply IH.
Qed.

Variable utcnow : nat → nat.
Variable bind_text : json → outcome string.

(** A created note comes from a body with a title and a content that the
    database stored; the note is appended to the table with two readings
    of the clock. *)
Lemma create_note_created (data : option dict) (st : store) (note : Note.t) (st' : store) :
  create_note utcnow bind_text data st = (Response (NoteBody note) 201, st') →
  ∃ d title content,
    data = Some d
    ∧ d !! "title" = Some title ∧ d !! "content" = Some content
    ∧ bind_text title = Returns (Note.title note)
    ∧ bind_text content = Returns (Note.content note)
    ∧ Note.tags note = tags_to_string (default (JItem (IStr "")) (d !! "tags"))
    ∧ new_rowid (rows st) = Some (Note.id note)
    ∧ Note.created_at note = utcnow (ticks st)
    ∧ Note.updated_at note = utcnow (S (ticks st))
    ∧ st' = Store (rows st ++ [note]) (2 + ticks st).
Proof.
  unfold create_note, insert_note. intros H.
  destruct data as [d|]; [|done].
  destruct (d !! "title") as [title|] eqn:Ht; [|done].
  destruct (d !! "content") as [content|] eqn:Hc; [|done].
  destruct (bind_text title) as [t|] eqn:Hbt, (bind_text content) as [c|] eqn:Hbc;
    try done.
  destruct (new_rowid (rows st)) as [id|] eqn:Hid; [|done].
  injection H as <- <-. exists d, title, content. by rewrite Ht, Hc.
Qed.

End CreateTags.

(** C2: a created note stores, for a list of tags, its elements
    stringified and trimmed, nulls dropped, joined by commas, repeats kept;
    for a single string, that string trimmed; for no [tags], the empty
    string. *)
Theorem C2_create_tags (utcnow : nat → nat) (bind_text : json → outcome string)
    (d : dict) (st : store) (note : Note.t) (st' : store) :
  create_note utcnow bind_text (Some d) st = (Response (NoteBody note) 201, st') →
  rows st' = rows st ++ [note]
  ∧ (∀ l, d !! "tags" = Some (JList l) → Note.tags note = spec_tag_string l)
  ∧ (∀ s, d !! "tags" = Some (JItem (IStr s)) → Note.tags note = Str.strip s)
  ∧ (d !! "tags" = None → Note.tags note = "").
Proof.
  intros H. apply create_note_created in H
    as (d' & title & content & [= <-] & _ & _ & _ & _ & Htags & _ & _ & _ & ->).
  split; [done|]. rewrite Htags.
  split; [|split]; intros; simplify_option_eq; [apply tags_to_string_list | done..].
Qed.

(** C2 on the three bodies of the specification: a list with a null and a
    repeat, a single string, and no tags. *)
Lemma C2_create_tags_witness :
  (∃ note st',
      create_note clock10 strict_bind (Some body_with_tag_list) empty_store
      = (Response (NoteBody note) 201, st')
      ∧ Note.tags note = "a,b,a")
  ∧ (∃ note st',
        create_note clock10 strict_bind (Some body_with_tag_string) empty_store
        = (Response (NoteBody note) 201, st')
        ∧ Note.tags note = "home")
  ∧ (∃ note st',
        create_note clock10 strict_bind (Some body_without_tags) empty_store
        = (Response (NoteBody note) 201, st')
        ∧ Note.tags note = "").
Proof.
  split; [|split]; eexists _, _; (split; [reflexivity|]).
  - exact (proj1 (proj2 (C2_create_tags clock10 strict_bind body_with_tag_list
                           empty_store _ _ eq_refl)) _ eq_refl).
  - exact (proj1 (proj2 (proj2 (C2_create_tags clock10 strict_bind body_with_tag_string
                                  empty_store _ _ eq_refl))) _ eq_refl).
  - exact (proj2 (proj2 (proj2 (C2_create_tags clock10 strict_bind body_without_tags
                                  empty_store _ _ eq_refl))) eq_refl).
Defined.

(** ** Update, delete and the rows they touch *)

Section UpdateFacts.

Variable utcnow : nat → nat.
Variable bind_text : json → outcome string.

(** A [str] is stored as it is. *)
Hypothesis bind_str : ∀ s, bind_text (JItem (IStr s)) = Returns s.

Lemma query_get_lookup (note_id i : nat) (note : Note.t) (l : list Note.t) :
  query_get note_id l = Some (i, note) → l !! i = Some note ∧ Note.id note = note_id.
Proof. intros (H & Hid & _)%list_find_Some. done. Qed.

(** Binding only the attributes that changed gives what binding all of
    them would. *)
Lemma bind_changed (v : json) (s : string) :
  (if bool_decide (v ≠ JItem (IStr s)) then bind_text v else Returns s) = bind_text v.
Proof.
  case_bool_decide as Hv; [done|]. subst v. by rewrite bind_str.
Qed.

(** What a commit that answers 200 does to the row. *)
Lemma commit_update_ok (i : nat) (note : Note.t) (title content : json) (tags : string)
    (st : store) (resp : response) (st' : store) :
  rows st !! i = Some note →
  commit_update utcnow bind_text i note title content tags st = (resp, st') →
  status resp = 200 →
  ∃ note',
    resp = Response (NoteBody note') 200
    ∧ rows st' = <[i := note']> (rows st)
    ∧ Note.id note' = Note.id note
    ∧ Note.created_at note' = Note.created_at note
    ∧ bind_text title = Returns (Note.title note')
    ∧ bind_text content = Returns (Note.content note')
    ∧ Note.tags note' = tags
    ∧ (title ≠ JItem (IStr (Note.title note))
       ∨ content ≠ JItem (IStr (Note.content note))
       ∨ tags ≠ Note.tags note →
       Note.updated_at note' = utcnow (ticks st) ∧ ticks st' = S (ticks st))
    ∧ (¬ (title ≠ JItem (IStr (Note.title note))
          ∨ content ≠ JItem (IStr (Note.content note))
          ∨ tags ≠ Note.tags note) →
       note' = note ∧ st' = st).
Proof.
  intros Hi Hcommit Hstatus. unfold commit_update in Hcommit.
  destruct (decide (title ≠ JItem (IStr (Note.title note))
                    ∨ content ≠ JItem (IStr (Note.content note))
                    ∨ tags ≠ Note.tags note)) as [Hch | Hsame].
  - assert (bool_decide (title ≠ JItem (IStr (Note.title note)))
            || bool_decide (content ≠ JItem (IStr (Note.content note)))
            || bool_decide (tags ≠ Note.tags note) = true) as Hb.
    { rewrite !orb_true_iff, !bool_decide_eq_true. tauto. }
    rewrite Hb in Hcommit. clear Hb.
    rewrite !bind_changed in Hcommit.
    destruct (bind_text title) as [t|] eqn:Ht, (bind_text content) as [c|] eqn:Hc;
      injection Hcommit as <- <-; try discriminate Hstatus.
    eexists. repeat (split; [reflexivity|]). split; [done|]. by intros [].
  - assert (bool_decide (title ≠ JItem (IStr (Note.title note)))
            || bool_decide (content ≠ JItem (IStr (Note.content note)))
            || bool_decide (tags ≠ Note.tags note) = false) as Hb.
    { apply not_true_is_false. rewrite !orb_true_iff, !bool_decide_eq_true. tauto. }
    rewrite Hb in Hcommit. clear Hb. injection Hcommit as <- <-.
    assert (title = JItem (IStr (Note.title note))) as -> by (apply dec_stable; tauto).
    assert (content = JItem (IStr (Note.content note))) as -> by (apply dec_stable; tauto).
    assert (tags = Note.tags note) as -> by (apply dec_stable; tauto).
    exists note. rewrite !bind_str, list_insert_id by done.
    repeat (split; [reflexivity|]). split; [tauto | done].
Qed.

Lemma submitted_differs_iff (d : dict) (note : Note.t) :
  submitted_differs d note
  ↔ default (JItem (IStr (Note.title note))) (d !! "title")
      ≠ JItem (IStr (Note.title note))
    ∨ default (JItem (IStr (Note.content note))) (d !! "content")
      ≠ JItem (IStr (Note.content note))
    ∨ match d !! "tags" with
      | Some tags => tags_to_string tags
      | None => Note.tags note
      end ≠ Note.tags note.
Proof.
  unfold submitted_differs.
  destruct (d !! "title") as [tv|], (d !! "content") as [cv|], (d !! "tags") as [gv|];
    simpl; (split;
      [ intros [(v & [= <-] & H) | [(v & [= <-] & H) | (v & [= <-] & H)]]; auto
      | intros [H | [H | H]]; try done; eauto 6 ]).
Qed.

(** The row an update that answers 200 leaves, for a body [d]. *)
Lemma update_note_ok (note_id : nat) (d : dict) (st : store) (i : nat) (note : Note.t)
    (resp : response) (st' : store) :
  query_get note_id (rows st) = Some (i, note) →
  update_note utcnow bind_text note_id (Some d) st = (resp, st') →
  status resp = 200 →
  d ≠ ∅
  ∧ ∃ note',
      resp = Response (NoteBody note') 200
      ∧ rows st' = <[i := note']> (rows st)
      ∧ Note.id note' = Note.id note
      ∧ Note.created_at note' = Note.created_at note
      ∧ bind_text (default (JItem (IStr (Note.title note))) (d !! "title"))
        = Returns (Note.title note')
      ∧ bind_text (default (JItem (IStr (Note.content note))) (d !! "content"))
        = Returns (Note.content note')
      ∧ Note.tags note' = from_option tags_to_string (Note.tags note) (d !! "tags")
      ∧ (submitted_differs d note →
         Note.updated_at note' = utcnow (ticks st) ∧ ticks st' = S (ticks st))
      ∧ (¬ submitted_differs d note → note' = note ∧ st' = st).
Proof.
  intros Hget Hupd Hstatus. unfold update_note in Hupd. rewrite Hget in Hupd.
  destruct (id_fits note_id); [|by injection Hupd as <- <-].
  apply query_get_lookup in Hget as [Hi _].
  case_bool_decide as Hd; [by injection Hupd as <- <-|]. split; [done|].
  apply commit_update_ok in Hupd
    as (note' & -> & Hrows & Hid & Hcr & Ht & Hc & Htags & Hch & Hsame); [|done..].
  pose proof (submitted_differs_iff d note) as Hiff.
  exists note'. repeat (split; [done|]).
  rewrite Hiff. by split.
Qed.

End UpdateFacts.

(** ** C5: update *)

(** C5, as the code has it: an update that answers 200 overwrites each
    field present in the body (tags in their stored form), keeps each absent
    field, the id and [created_at]; [updated_at] becomes the reading of the
    clock when some submitted value differs from the one the note holds, and
    keeps its value when none does. *)
Theorem C5_update_fields (utcnow : nat → nat) (bind_text : json → outcome string)
    (note_id : nat) (d : dict) (st : store) (i : nat) (note : Note.t)
    (resp : response) (st' : store) :
  (∀ s, bind_text (JItem (IStr s)) = Returns s) →
  query_get note_id (rows st) = Some (i, note) →
  update_note utcnow bind_text note_id (Some d) st = (resp, st') →
  status resp = 200 →
  ∃ note',
    resp = Response (NoteBody note') 200
    ∧ rows st' = <[i := note']> (rows st)
    ∧ (∀ v, d !! "title" = Some v → bind_text v = Returns (Note.title note'))
    ∧ (d !! "title" = None → Note.title note' = Note.title note)
    ∧ (∀ v, d !! "content" = Some v → bind_text v = Returns (Note.content note'))
    ∧ (d !! "content" = None → Note.content note' = Note.content note)
    ∧ (∀ v, d !! "tags" = Some v → Note.tags note' = tags_to_string v)
    ∧ (d !! "tags" = None → Note.tags note' = Note.tags note)
    ∧ Note.id note' = Note.id note
    ∧ Note.created_at note' = Note.created_at note
    ∧ (submitted_differs d note → Note.updated_at note' = utcnow (ticks st))
    ∧ (¬ submitted_differs d note → Note.updated_at note' = Note.updated_at note).
Proof.
  intros Hbind Hget Hupd Hstatus.
  destruct (update_note_ok utcnow bind_text Hbind note_id d st i note resp st'
              Hget Hupd Hstatus)
    as (_ & note' & -> & Hrows & Hid & Hcr & Ht & Hc & Htags & Hch & Hsame).
  exists note'. repeat (split; [done|]).
  split; [intros v Hv; by rewrite Hv in Ht|].
  split; [intros Hv; rewrite Hv in Ht; simpl in Ht; rewrite Hbind in Ht; by injection Ht|].
  split; [intros v Hv; by rewrite Hv in Hc|].
  split; [intros Hv; rewrite Hv in Hc; simpl in Hc; rewrite Hbind in Hc; by injection Hc|].
  split; [intros v Hv; by rewrite Hv in Htags|].
  split; [intros Hv; by rewrite Hv in Htags|].
  repeat (split; [done|]).
  split; [intros H; by apply Hch | intros H; by destruct (Hsame H) as [-> _]].
Qed.

(** C5 on the body [{title: "X"}] sent for a note whose title is "T". *)
Lemma C5_update_fields_witness :
  let note := Note.mk 1 "T" "C" "a,b,a" 0 10 in
  let run := update_note clock10 strict_bind 1 (Some body_title_X) store_one_note in
  ∃ note',
    run.1 = Response (NoteBody note') 200
    ∧ rows run.2 = <[0 := note']> (rows store_one_note)
    ∧ (∀ v, body_title_X !! "title" = Some v → strict_bind v = Returns (Note.title note'))
    ∧ (body_title_X !! "title" = None → Note.title note' = Note.title note)
    ∧ (∀ v, body_title_X !! "content" = Some v → strict_bind v = Returns (Note.content note'))
    ∧ (body_title_X !! "content" = None → Note.content note' = Note.content note)
    ∧ (∀ v, body_title_X !! "tags" = Some v → Note.tags note' = tags_to_string v)
    ∧ (body_title_X !! "tags" = None → Note.tags note' = Note.tags note)
    ∧ Note.id note' = Note.id note
    ∧ Note.created_at note' = Note.created_at note
    ∧ (submitted_differs body_title_X note
       → Note.updated_at note' = clock10 (ticks store_one_note))
    ∧ (¬ submitted_differs body_title_X note
       → Note.updated_at note' = Note.updated_at note).
Proof.
  intros note run.
  apply (C5_update_fields clock10 strict_bind 1 body_title_X store_one_note 0 note
           run.1 run.2); [intros s; reflexivity | reflexivity ..].
Defined.

(** The claim's last clause fails: the body [{title: "T"}] sent for a note
    whose title is "T" is answered with 200 and leaves [updated_at] at 10,
    the store as it was and the clock unread, while the clock now reads 20. *)
Lemma C5_same_values_keep_updated_at :
  ∃ note',
    update_note clock10 strict_bind 1 (Some body_title_T) store_one_note
    = (Response (NoteBody note') 200, store_one_note)
    ∧ Note.updated_at note' = 10
    ∧ clock10 (ticks store_one_note) = 20
    ∧ Note.updated_at note' ≠ clock10 (ticks store_one_note).
Proof. eexists. repeat split; [reflexivity..|]. vm_compute. lia. Qed.

(** ** C10: title and content *)

(** The claim fails: a body whose title and content are empty strings is
    accepted, and the note is stored with both empty. *)
Lemma C10_empty_title_accepted :
  ∃ note st',
    create_note clock10 strict_bind (Some body_with_empty_strings) empty_store
    = (Response (NoteBody note) 201, st')
    ∧ note ∈ rows st'
    ∧ Note.title note = ""
    ∧ Note.content note = "".
Proof. eexists _, _. split; [reflexivity|]. split; [|done]. simpl. by left. Qed.

(** C10, as the code has it: a note is created only from a body that has a
    title and a content, neither of them null, and stores what the database
    made of them; an update that answers 200 replaces a title or a content
    only by a value that is not null.  Neither route looks at whether the
    text is empty. *)
Theorem C10_title_content_present (utcnow : nat → nat) (bind_text : json → outcome string) :
  (∀ s, bind_text (JItem INone) ≠ Returns s) →
  (∀ data st note st',
      create_note utcnow bind_text data st = (Response (NoteBody note) 201, st') →
      ∃ d title content,
        data = Some d
        ∧ d !! "title" = Some title ∧ title ≠ JItem INone
        ∧ d !! "content" = Some content ∧ content ≠ JItem INone
        ∧ bind_text title = Returns (Note.title note)
        ∧ bind_text content = Returns (Note.content note))
  ∧ (∀ note_id d st note' st',
        update_note utcnow bind_text note_id (Some d) st
        = (Response (NoteBody note') 200, st') →
        d !! "title" ≠ Some (JItem INone) ∧ d !! "content" ≠ Some (JItem INone)).
Proof.
  intros Hnull. split.
  - intros data st note st' H. apply create_note_created in H
      as (d & title & content & -> & Ht & Hc & Hbt & Hbc & _).
    exists d, title, content. repeat (split; [done|]).
    split; [intros ->; by apply Hnull in Hbt|]. split; [done|].
    split; [intros ->; by apply Hnull in Hbc | done].
  - intros note_id d st note' st' H. unfold update_note in H.
    destruct (id_fits note_id); [|done].
    destruct (query_get note_id (rows st)) as [[i note]|]; [|done].
    case_bool_decide; [done|]. unfold commit_update in H.
    split; intros Hv; rewrite Hv in H; simpl in H.
    + destruct (bind_text (JItem INone)) as [txt|]; [by destruct (Hnull txt) | done].
    + rewrite orb_true_r in H. simpl in H.
      destruct (if bool_decide _ then _ else _); [|done].
      destruct (bind_text (JItem INone)) as [txt|]; [by destruct (Hnull txt) | done].
Qed.

(** C10 with the driver that stores strings only. *)
Lemma C10_title_content_present_witness :
  (∀ s, strict_bind (JItem INone) ≠ Returns s)
  ∧ ∃ d title content,
      Some body_with_empty_strings = Some d
      ∧ d !! "title" = Some title ∧ title ≠ JItem INone
      ∧ d !! "content" = Some content ∧ content ≠ JItem INone
      ∧ strict_bind title = Returns ""
      ∧ strict_bind content = Returns "".
Proof.
  split; [intros s; discriminate|].
  apply (proj1 (C10_title_content_present clock10 strict_bind
                  (λ s H, eq_ind (Raises "Error binding parameter")
                            (λ o, match o with Raises _ => True | Returns _ => False end)
                            I _ H))
           (Some body_with_empty_strings) empty_store
           (Note.mk 1 "" "" "" 0 10)
           (Store [Note.mk 1 "" "" "" 0 10] 2)).
  reflexivity.
Defined.

(** ** C6: the two timestamps *)

Section Timestamps.

Variable utcnow : nat → nat.
Variable bind_text : json → outcome string.

(** The clock never goes back. *)
Hypothesis utcnow_mono : ∀ j k, j ≤ k → utcnow j ≤ utcnow k.

Lemma stamped_later (st st' : store) (note : Note.t) :
  ticks st ≤ ticks st' → stamped utcnow st note → stamped utcnow st' note.
Proof.
  intros Hle (Hok & k & Hk & Hcr). split; [done|]. exists k. split; [lia | done].
Qed.

Lemma Forall_stamped_later (st st' : store) (l : list Note.t) :
  ticks st ≤ ticks st' → Forall (stamped utcnow st) l → Forall (stamped utcnow st') l.
Proof.
  intros Hle Hl. eapply Forall_impl; [exact Hl|]. intros note. by apply stamped_later.
Qed.

Lemma elem_of_insert_inv (l : list Note.t) (i : nat) (x y : Note.t) :
  y ∈ <[i := x]> l → y = x ∨ y ∈ l.
Proof.
  intros [j Hj]%list_elem_of_lookup.
  apply list_lookup_insert_Some in Hj as [(_ & -> & _) | (_ & Hj)]; [by left|].
  right. by eapply list_elem_of_lookup_2.
Qed.

Lemma insert_note_stamped (title content : json) (tags : string) (st : store) :
  Forall (stamped utcnow st) (rows st) →
  Forall (stamped utcnow (insert_note utcnow bind_text title content tags st).2)
         (rows (insert_note utcnow bind_text title content tags st).2).
Proof.
  intros Hinv. unfold insert_note.
  destruct (bind_text title), (bind_text content); try destruct (new_rowid (rows st));
    simpl; try (eapply Forall_stamped_later; [|exact Hinv]; simpl; lia).
  apply Forall_app. split.
  - eapply Forall_stamped_later; [|exact Hinv]. simpl. lia.
  - apply Forall_singleton. split; simpl.
    + apply utcnow_mono. lia.
    + exists (ticks st). split; [lia | done].
Qed.

Lemma commit_update_stamped (i : nat) (note : Note.t) (title content : json)
    (tags : string) (st : store) :
  note ∈ rows st →
  Forall (stamped utcnow st) (rows st) →
  Forall (stamped utcnow (commit_update utcnow bind_text i note title content tags st).2)
         (rows (commit_update utcnow bind_text i note title content tags st).2).
Proof.
  intros Hnote Hinv. unfold commit_update.
  destruct (_ || _); [|done].
  destruct (if bool_decide (title ≠ _) then _ else _);
    [destruct (if bool_decide (content ≠ _) then _ else _)|]; simpl;
    try (eapply Forall_stamped_later; [|exact Hinv]; simpl; lia).
  rewrite Forall_forall in Hinv. apply Forall_forall.
  intros n [-> | Hn]%elem_of_insert_inv.
  - destruct (Hinv note Hnote) as (_ & k & Hk & Hcr). split; simpl.
    + rewrite Hcr. apply utcnow_mono. lia.
    + exists k. split; [lia | done].
  - eapply stamped_later; [|by apply Hinv]. simpl. lia.
Qed.

(** Every request keeps the invariant. *)
Lemma handle_stamped (req : request) (st : store) :
  Forall (stamped utcnow st) (rows st) →
  Forall (stamped utcnow (handle utcnow bind_text req st).2)
         (rows (handle utcnow bind_text req st).2).
Proof.
  intros Hinv. destruct req as [data | note_id data | note_id]; simpl.
  - unfold create_note. destruct data as [d|]; [|done].
    destruct (d !! "title"), (d !! "content"); try done.
    by apply insert_note_stamped.
  - unfold update_note. destruct (id_fits note_id); [|done].
    destruct (query_get note_id (rows st)) as [[i note]|] eqn:Hget; [|done].
    destruct data as [d|]; [|done]. case_bool_decide; [done|].
    apply commit_update_stamped; [|done].
    apply query_get_lookup in Hget as [Hi _]. by eapply list_elem_of_lookup_2.
  - unfold delete_note. destruct (id_fits note_id); [|done].
    destruct (query_get note_id (rows st)) as [[i note]|]; [|done]. simpl.
    rewrite Forall_forall in Hinv. apply Forall_forall.
    intros n Hn%list_elem_of_delete_inv.
    apply (stamped_later st); [done | by apply Hinv].
Qed.

Lemma reachable_stamped (st : store) :
  reachable utcnow bind_text st → Forall (stamped utcnow st) (rows st).
Proof.
  induction 1 as [|req st _ IH]; [constructor|]. by apply handle_stamped.
Qed.

End Timestamps.

(** The claim's first clause fails: the two timestamps of a new note are
    two readings of the clock, here 0 and 10. *)
Lemma C6_created_at_differs_from_updated_at :
  ∃ note st',
    create_note clock10 strict_bind (Some body_without_tags) empty_store
    = (Response (NoteBody note) 201, st')
    ∧ Note.created_at note = 0
    ∧ Note.updated_at note = 10
    ∧ Note.updated_at note ≠ Note.created_at note.
Proof.
  eexists _, _. split; [reflexivity|]. simpl. split; [done|]. split; [done|].
  unfold clock10. lia.
Qed.

(** C6, as the code has it, for a clock that never goes back: a new note
    gets two successive readings of the clock, [created_at] first, so that
    [created_at <= updated_at], with equality exactly when the clock did not
    move in between; and [updated_at >= created_at] holds for every note of
    every store that creates, updates and deletes lead to. *)
Theorem C6_timestamps (utcnow : nat → nat) (bind_text : json → outcome string) :
  (∀ j k, j ≤ k → utcnow j ≤ utcnow k) →
  (∀ data st note st',
      create_note utcnow bind_text data st = (Response (NoteBody note) 201, st') →
      Note.created_at note = utcnow (ticks st)
      ∧ Note.updated_at note = utcnow (S (ticks st))
      ∧ Note.created_at note ≤ Note.updated_at note)
  ∧ (∀ st note,
        reachable utcnow bind_text st → note ∈ rows st →
        Note.created_at note ≤ Note.updated_at note).
Proof.
  intros Hmono. split.
  - intros data st note st' H. apply create_note_created in H
      as (d & title & content & _ & _ & _ & _ & _ & _ & _ & -> & -> & _).
    repeat split. apply Hmono. lia.
  - intros st note Hreach Hnote.
    pose proof (reachable_stamped utcnow bind_text Hmono st Hreach) as Hinv.
    rewrite Forall_forall in Hinv. by destruct (Hinv note Hnote).
Qed.

(** C6 on a store reached by a create followed by an update. *)
Lemma C6_timestamps_witness :
  let st := (update_note clock10 strict_bind 1 (Some body_title_X) store_one_note).2 in
  (∀ j k, j ≤ k → clock10 j ≤ clock10 k)
  ∧ reachable clock10 strict_bind st
  ∧ Note.mk 1 "X" "C" "a,b,a" 0 20 ∈ rows st
  ∧ Note.created_at (Note.mk 1 "X" "C" "a,b,a" 0 20)
    ≤ Note.updated_at (Note.mk 1 "X" "C" "a,b,a" 0 20).
Proof.
  intros st.
  assert (∀ j k, j ≤ k → clock10 j ≤ clock10 k) as Hmono.
  { intros j k Hjk. unfold clock10. lia. }
  assert (reachable clock10 strict_bind st) as Hreach.
  { apply (reachable_step clock10 strict_bind (Update 1 (Some body_title_X)) store_one_note).
    apply (reachable_step clock10 strict_bind (Create (Some body_with_tag_list)) empty_store).
    apply reachable_empty. }
  assert (Note.mk 1 "X" "C" "a,b,a" 0 20 ∈ rows st) as Hin.
  { vm_compute. by left. }
  split; [exact Hmono|]. split; [exact Hreach|]. split; [exact Hin|].
  exact (proj2 (C6_timestamps clock10 strict_bind Hmono) st _ Hreach Hin).
Defined.

(** ** C7: one password check per login *)

Section LoginFacts.

Variable user_model : outcome user_class.
Variable check_password_hash : option string → string → outcome bool.

(** The checks run are the one the priority order selects, if any. *)
Lemma verify_ran (user : User) (password : string) :
  (verify check_password_hash user password).1 = option_list (spec_strategy user).
Proof.
  unfold verify, spec_strategy.
  destruct (u_check_password user), (u_password_hash user), (u_password user); done.
Qed.

Lemma verify_no_verifier (user : User) (password : string) :
  spec_strategy user = None ↔ (verify check_password_hash user password).2 = NoVerifier.
Proof.
  unfold verify, spec_strategy.
  destruct (u_check_password user) as [| |f];
    [ | | simpl; split; [done | by destruct (f password)]];
    (destruct (u_password_hash user) as [h|];
     [ simpl; split; [done | by destruct (check_password_hash h password)]
     | by destruct (u_password user) ]).
Qed.

(** A login that gets as far as a user answers by the verdict alone. *)
Lemma login_found (cls : user_class) (username password : string)
    (users : list User) (user : User) :
  username ≠ "" → password ≠ "" →
  user_model = Returns cls →
  find_user cls username users = Some user →
  login user_model check_password_hash (Some username) (Some password) users
  = (match (verify check_password_hash user password).2 with
     | NoVerifier =>
         AuthResponse (AuthError "No password verifier available for User model" None) 500
     | VerifierRaised msg =>
         AuthResponse (AuthError "Authentication failed" (Some msg)) 500
     | Valid false => AuthResponse (AuthError "Invalid credentials" None) 401
     | Valid true => AuthResponse (AuthOk "Login successful" (user_info user)) 200
     end,
     (verify check_password_hash user password).1).
Proof.
  intros Hu%truthy_true Hp%truthy_true Hmodel Hfind. unfold login.
  rewrite Hu, Hp, Hmodel, Hfind. simpl.
  destruct (verify check_password_hash user password) as [ran [[]| |]]; done.
Qed.

(** A login for a name no user has. *)
Lemma login_not_found (cls : user_class) (username password : string)
    (users : list User) :
  username ≠ "" → password ≠ "" →
  user_model = Returns cls →
  find_user cls username users = None →
  login user_model check_password_hash (Some username) (Some password) users
  = (AuthResponse (AuthError "Invalid credentials" None) 401, []).
Proof.
  intros Hu%truthy_true Hp%truthy_true Hmodel Hfind. unfold login.
  by rewrite Hu, Hp, Hmodel, Hfind.
Qed.

End LoginFacts.

(** C7: a login that finds a user runs exactly the first available of the
    three checks (the entity's [check_password] called with the raw
    password, else the hash check of the raw password against
    [password_hash], else equality with [password]) and never a second one;
    with none of the three it answers 500 and runs none. *)
Theorem C7_one_strategy (user_model : outcome user_class)
    (check_password_hash : option string → string → outcome bool)
    (cls : user_class) (username password : string) (users : list User) (user : User) :
  username ≠ "" → password ≠ "" →
  user_model = Returns cls →
  find_user cls username users = Some user →
  let run := login user_model check_password_hash (Some username) (Some password) users in
  run.2 = option_list (spec_strategy user)
  ∧ length run.2 ≤ 1
  ∧ run.2 = (verify check_password_hash user password).1
  ∧ (∀ check, u_check_password user = Method check →
       verify check_password_hash user password
       = ([ByCheckPassword], verdict_of (check password)))
  ∧ (∀ pwhash, spec_strategy user = Some ByPasswordHash →
       u_password_hash user = Some pwhash →
       verify check_password_hash user password
       = ([ByPasswordHash], verdict_of (check_password_hash pwhash password)))
  ∧ (∀ stored, spec_strategy user = Some ByPlainPassword →
       u_password user = Some stored →
       verify check_password_hash user password
       = ([ByPlainPassword], Valid (bool_decide (stored = Some password))))
  ∧ (spec_strategy user = None →
     run = (AuthResponse (AuthError "No password verifier available for User model" None)
              500, [])).
Proof.
  intros Hu Hp Hmodel Hfind run. unfold run.
  rewrite (login_found user_model check_password_hash cls username password users user)
    by done.
  simpl. rewrite verify_ran. split; [done|].
  split; [destruct (spec_strategy user); simpl; lia|]. split; [done|].
  split; [intros check Hc; unfold verify; by rewrite Hc|].
  split; [|split].
  - intros pwhash Hs Hh. unfold verify, spec_strategy in *. rewrite Hh in *.
    by destruct (u_check_password user).
  - intros stored Hs Hst. unfold verify, spec_strategy in *. rewrite Hst in *.
    by destruct (u_check_password user), (u_password_hash user).
  - intros Hnone.
    pose proof (proj1 (verify_no_verifier check_password_hash user password) Hnone) as Hv.
    by rewrite Hv, Hnone.
Qed.

(** C7 for a user whose class keeps a password hash. *)
Lemma C7_one_strategy_witness :
  let run := login (Returns full_class) sample_check_hash (Some "alice") (Some "secret")
                   [alice] in
  run.2 = [ByPasswordHash] ∧ length run.2 ≤ 1.
Proof.
  intros run.
  destruct (C7_one_strategy (Returns full_class) sample_check_hash full_class
              "alice" "secret" [alice] alice) as (Hran & Hlen & _); [done..|].
  split; [exact Hran | exact Hlen].
Defined.

(** ** C8: the two failures of login look the same *)

(** C8, as the code has it: a login that names no user and a login that
    names a user whose password check returns false for the password get
    the same response, status 401 with the body
    [{error: "Invalid credentials"}]. *)
Theorem C8_same_failure (user_model : outcome user_class)
    (check_password_hash : option string → string → outcome bool)
    (cls : user_class) (users : list User)
    (unknown password1 known password2 : string) (user : User) :
  unknown ≠ "" → password1 ≠ "" → known ≠ "" → password2 ≠ "" →
  user_model = Returns cls →
  find_user cls unknown users = None →
  find_user cls known users = Some user →
  (verify check_password_hash user password2).2 = Valid false →
  let response1 :=
    (login user_model check_password_hash (Some unknown) (Some password1) users).1 in
  let response2 :=
    (login user_model check_password_hash (Some known) (Some password2) users).1 in
  response1 = response2
  ∧ auth_status response1 = 401
  ∧ auth_body_of response1 = AuthError "Invalid credentials" None.
Proof.
  intros Hu1 Hp1 Hu2 Hp2 Hmodel Hnone Hsome Hwrong response1 response2.
  unfold response1, response2.
  rewrite (login_not_found user_model check_password_hash cls unknown password1 users)
    by done.
  rewrite (login_found user_model check_password_hash cls known password2 users user)
    by done.
  by rewrite Hwrong.
Qed.

(** C8 for "bob", whom the table does not hold, and "alice" with a wrong
    password. *)
Lemma C8_same_failure_witness :
  (login (Returns full_class) sample_check_hash (Some "bob") (Some "guess") [alice]).1
  = (login (Returns full_class) sample_check_hash (Some "alice") (Some "guess") [alice]).1
  ∧ auth_status
      (login (Returns full_class) sample_check_hash (Some "bob") (Some "guess") [alice]).1
    = 401
  ∧ auth_body_of
      (login (Returns full_class) sample_check_hash (Some "bob") (Some "guess") [alice]).1
    = AuthError "Invalid credentials" None.
Proof.
  apply (C8_same_failure (Returns full_class) sample_check_hash full_class [alice]
           "bob" "guess" "alice" "guess" alice); done.
Defined.

(** The claim fails when the check of the known user raises: "dana" has
    no stored hash, the hash check raises on it whatever the password, and
    the [except] of [login] answers 500 with the error's text, while the
    unknown "bob" gets the 401. *)
Lemma C8_raising_check_answers_500 :
  find_user full_class "bob" [dana] = None
  ∧ find_user full_class "dana" [dana] = Some dana
  ∧ (login (Returns full_class) sample_check_hash (Some "bob") (Some "guess") [dana]).1
    = AuthResponse (AuthError "Invalid credentials" None) 401
  ∧ (login (Returns full_class) sample_check_hash (Some "dana") (Some "guess") [dana]).1
    = AuthResponse
        (AuthError "Authentication failed"
           (Some "'NoneType' object has no attribute 'count'")) 500
  ∧ (login (Returns full_class) sample_check_hash (Some "bob") (Some "guess") [dana]).1
    ≠ (login (Returns full_class) sample_check_hash (Some "dana") (Some "guess") [dana]).1.
Proof. repeat split; try reflexivity. discriminate. Qed.

(** ** C9: registration of a duplicate *)

Section RegisterFacts.

Variable user_model : outcome user_class.
Variable create_user : string → option string → string → list User → outcome User.

(** Every register request that lacks a username or a password is
    answered with 400 and leaves the table as it is. *)
Lemma register_invalid (username email password : option string) (users : list User) :
  (username = None ∨ username = Some "" ∨ password = None ∨ password = Some "") →
  register user_model create_user username email password users
  = (AuthResponse (AuthError "username and password are required" None) 400, users).
Proof.
  unfold register. destruct username as [[|]|], password as [[|]|]; simpl; try done.
  intros [|[|[|]]]; done.
Qed.

End RegisterFacts.

Lemma head_filter_elem_of (P : User → Prop) `{!∀ u, Decision (P u)}
    (users : list User) (u : User) :
  u ∈ users → P u → is_Some (head (filter P users)).
Proof.
  intros Hin HP. destruct (filter P users) as [|v l] eqn:Hf; [|by eexists].
  exfalso. eapply filter_nil_not_elem_of; [exact Hf | exact HP | exact Hin].
Qed.

(** The uniqueness query finds a row when one has the username or, with
    an [email] column, the email of the request. *)
Lemma existing_user_found (cls : user_class) (name : string) (email : option string)
    (users : list User) (u : User) :
  has_username cls = true →
  u ∈ users →
  u_username u = Some name ∨ (has_email cls = true ∧ u_email u = email) →
  ∃ found, existing_user cls name email users = Returns (Some found).
Proof.
  intros Hname Hin Hdup. unfold existing_user. rewrite Hname.
  destruct (has_email cls).
  - destruct (head_filter_elem_of
                (λ v, u_username v = Some name ∨ u_email v = email) users u)
      as [found ->]; [done | tauto | by exists found].
  - destruct Hdup as [Hdup | [? _]]; [|done].
    destruct (head_filter_elem_of (λ v, u_username v = Some name) users u)
      as [found ->]; [done.. | by exists found].
Qed.

(** C9: when the request's username or email is that of a persisted user,
    registration answers 400 and leaves the [users] table as it is; and for
    a User class without an [email] column the uniqueness query does not
    fail but asks by username alone. *)
Theorem C9_duplicate_rejected (user_model : outcome user_class)
    (create_user : string → option string → string → list User → outcome User)
    (cls : user_class) (username email password : option string)
    (users : list User) (u : User) :
  user_model = Returns cls →
  has_username cls = true →
  u ∈ users →
  u_username u = username ∨ (has_email cls = true ∧ u_email u = email) →
  auth_status (register user_model create_user username email password users).1 = 400
  ∧ (register user_model create_user username email password users).2 = users
  ∧ (has_email cls = false →
     ∀ name, existing_user cls name email users
             = Returns (head (filter (λ v, u_username v = Some name) users))).
Proof.
  intros Hmodel Hname Hin Hdup.
  assert (register user_model create_user username email password users
          = (AuthResponse (AuthError "username and password are required" None) 400, users)
          ∨ register user_model create_user username email password users
            = (AuthResponse
                 (AuthError "User with that username or email already exists" None)
                 400, users)) as Hrun.
  { destruct username as [name|]; [|left; apply register_invalid; auto].
    destruct password as [pw|]; [|left; apply register_invalid; auto].
    destruct (Str.truthy name) eqn:Hn;
      [|left; apply truthy_false in Hn as ->; apply register_invalid; auto].
    destruct (Str.truthy pw) eqn:Hp;
      [|left; apply truthy_false in Hp as ->; apply register_invalid; auto].
    right. unfold register. rewrite Hn, Hp, Hmodel. simpl.
    by destruct (existing_user_found cls name email users u) as [found ->]. }
  split; [by destruct Hrun as [-> | ->]|]. split; [by destruct Hrun as [-> | ->]|].
  intros Hemail name. unfold existing_user. by rewrite Hname, Hemail.
Qed.

(** C9 for a second registration under the name "alice". *)
Lemma C9_duplicate_rejected_witness :
  auth_status
    (register (Returns full_class) sample_create_user
       (Some "alice") (Some "other@example.org") (Some "pw") [alice]).1 = 400
  ∧ (register (Returns full_class) sample_create_user
       (Some "alice") (Some "other@example.org") (Some "pw") [alice]).2 = [alice]
  ∧ (has_email full_class = false →
     ∀ name, existing_user full_class name (Some "other@example.org") [alice]
             = Returns (head (filter (λ v, u_username v = Some name) [alice]))).
Proof.
  apply (C9_duplicate_rejected (Returns full_class) sample_create_user full_class
           (Some "alice") (Some "other@example.org") (Some "pw") [alice] alice).
  - reflexivity.
  - reflexivity.
  - by left.
  - by left.
Defined.

(** When the [to_dict] of the new user raises, the answer is 500 although
    the row was committed. *)
Example register_to_dict_raises :
  register (Returns full_class) sample_create_user_no_dict
    (Some "bob") (Some "bob@example.org") (Some "pw") [alice]
  = (AuthResponse (AuthError "Failed to create user" (Some "no to_dict")) 500,
     [alice;
      mkUser (IOther "2") (Some "bob") (Some "bob@example.org") NoAttr
        (Some (Some "hash-of-pw")) None (Raises "no to_dict")]).
Proof. reflexivity. Qed.

(** Registration under a new name and email goes through and adds the row. *)
Example register_new_user :
  let run := register (Returns full_class) sample_create_user
               (Some "bob") (Some "bob@example.org") (Some "pw") [alice] in
  auth_status run.1 = 201 ∧ length run.2 = 2.
Proof. split; reflexivity. Qed.

(** Without an [email] column the same email is not looked at: the check
    is by username alone. *)
Example register_username_only :
  existing_user (UserClass true false) "bob" (Some "alice@example.org") [alice]
  = Returns None.
Proof. reflexivity. Qed.

(** * Further properties of the note store *)

(** ** Listing *)

(** [get_notes] answers 200 with every row of the table, each once, most
    recently updated first. *)
Theorem get_notes_all_sorted (st : store) :
  ∃ l, get_notes st = Response (NotesBody l) 200
       ∧ l ≡ₚ rows st
       ∧ StronglySorted updated_desc l.
Proof.
  exists (order_by_updated_desc (rows st)).
  split; [done|]. split; [apply order_by_perm | apply order_by_sorted].
Qed.

(** ** Failed writes *)

Section FailedWrites.

Variable utcnow : nat → nat.
Variable bind_text : json → outcome string.

(** Whatever the request, an answer with an error status (400 and above)
    leaves the table as it was: a failed INSERT or UPDATE is rolled back,
    and a rejected request writes nothing. *)
Theorem error_keeps_rows (req : request) (st : store) :
  400 ≤ status (handle utcnow bind_text req st).1 →
  rows (handle utcnow bind_text req st).2 = rows st.
Proof.
  destruct req as [data | note_id data | note_id]; simpl.
  - unfold create_note, insert_note. destruct data as [d|]; [|done].
    destruct (d !! "title"), (d !! "content"); try done.
    destruct (bind_text _); [destruct (bind_text _); [destruct (new_rowid _)|]|];
      simpl; [lia | done..].
  - unfold update_note, commit_update. destruct (id_fits note_id); [|done].
    destruct (query_get note_id (rows st)) as [[i note]|]; [|done].
    destruct data as [d|]; [|done]. case_bool_decide; [done|].
    destruct (_ || _); [|done].
    destruct (if bool_decide (_ ≠ JItem (IStr (Note.title note))) then _ else _);
      [destruct (if bool_decide (_ ≠ JItem (IStr (Note.content note))) then _ else _)|];
      simpl; [lia | done..].
  - unfold delete_note. destruct (id_fits note_id); [|done].
    destruct (query_get note_id (rows st)) as [[i note]|]; simpl; [lia | done].
Qed.

End FailedWrites.

(** A create without a title is answered 400 and changes nothing. *)
Lemma error_keeps_rows_witness :
  400 ≤ status (handle clock10 strict_bind (Create (Some body_title_T)) store_one_note).1
  ∧ rows (handle clock10 strict_bind (Create (Some body_title_T)) store_one_note).2
    = rows store_one_note.
Proof.
  split; [vm_compute; lia|].
  apply (error_keeps_rows clock10 strict_bind (Create (Some body_title_T)) store_one_note).
  vm_compute. lia.
Defined.

(** ** Ids *)

Section Ids.

Variable utcnow : nat → nat.
Variable bind_text : json → outcome string.

Lemma next_id_fresh (l : list Note.t) (n : Note.t) : n ∈ l → Note.id n < next_id l.
Proof.
  intros Hn. unfold next_id. apply Nat.lt_succ_r, max_list_elem_of_le.
  apply list_elem_of_fmap. eauto.
Qed.

(** The id of a new row is in no row of the table, and SQLite can hold it. *)
Lemma new_rowid_fresh (l : list Note.t) (k : nat) :
  new_rowid l = Some k → (k ∉ (Note.id <$> l)) ∧ (id_fits k = true).
Proof.
  unfold new_rowid. destruct (id_fits (next_id l)) eqn:Hfit.
  - intros [= <-]. split; [|done].
    intros (n & Heq & Hn)%list_elem_of_fmap. apply next_id_fresh in Hn. lia.
  - intros ([i k'] & Hfind & ->)%fmap_Some.
    by apply list_find_Some in Hfind as (_ & Hk & _).
Qed.

Lemma handle_unique_ids (req : request) (st : store) :
  unique_ids st → unique_ids (handle utcnow bind_text req st).2.
Proof.
  unfold unique_ids. intros Hnd. destruct req as [data | note_id data | note_id]; simpl.
  - unfold create_note, insert_note. destruct data as [d|]; [|done].
    destruct (d !! "title"), (d !! "content"); try done.
    destruct (bind_text _); [destruct (bind_text _)|]; [|done..].
    destruct (new_rowid (rows st)) as [k|] eqn:Hk; [|done]. simpl.
    apply new_rowid_fresh in Hk as [Hk _].
    rewrite fmap_app. apply NoDup_app. split; [done|]. split; [|apply NoDup_singleton].
    intros x Hx Hx'. simpl in Hx'. apply list_elem_of_singleton in Hx' as ->. done.
  - unfold update_note, commit_update. destruct (id_fits note_id); [|done].
    destruct (query_get note_id (rows st)) as [[i note]|] eqn:Hget; [|done].
    destruct data as [d|]; [|done]. case_bool_decide; [done|].
    destruct (_ || _); [|done].
    destruct (if bool_decide (_ ≠ JItem (IStr (Note.title note))) then _ else _);
      [destruct (if bool_decide (_ ≠ JItem (IStr (Note.content note))) then _ else _)|];
      simpl; [|done..].
    apply query_get_lookup in Hget as [Hi _].
    rewrite list_fmap_insert. simpl. rewrite list_insert_id; [done|].
    by rewrite list_lookup_fmap, Hi.
  - unfold delete_note. destruct (id_fits note_id); [|done].
    destruct (query_get note_id (rows st)) as [[i note]|]; [|done]. simpl.
    rewrite list_fmap_delete. apply (sublist_NoDup _ _ Hnd), sublist_delete.
Qed.

(** However the store was reached, no two notes share an id. *)
Theorem reachable_unique_ids (st : store) :
  reachable utcnow bind_text st → unique_ids st.
Proof.
  induction 1 as [|req st _ IH]; [apply NoDup_nil_2 | by apply handle_unique_ids].
Qed.

(** A note just created is the one [get_note] returns for its id. *)
Theorem create_then_get (data : option dict) (st : store) (note : Note.t) (st' : store) :
  create_note utcnow bind_text data st = (Response (NoteBody note) 201, st') →
  get_note (Note.id note) st' = Response (NoteBody note) 200.
Proof.
  intros H. apply create_note_created in H
    as (d & title & content & _ & _ & _ & _ & _ & _ & Hid & _ & _ & ->).
  apply new_rowid_fresh in Hid as [Hfresh Hfits].
  unfold get_note, query_get. rewrite Hfits. simpl.
  assert (list_find (λ n, Note.id n = Note.id note) (rows st ++ [note])
          = Some (length (rows st), note)) as ->; [|done].
  apply list_find_Some. split; [|split; [done|]].
  - by rewrite lookup_app_r, Nat.sub_diag by lia.
  - intros j y Hj Hlt Heq. rewrite lookup_app_l in Hj by done.
    apply Hfresh, list_elem_of_fmap. exists y. split; [done|].
    by eapply list_elem_of_lookup_2.
Qed.

Lemma query_get_insert (note_id : nat) (l : list Note.t) (i : nat) (note note' : Note.t) :
  query_get note_id l = Some (i, note) →
  Note.id note' = note_id →
  query_get note_id (<[i := note']> l) = Some (i, note').
Proof.
  unfold query_get. intros (Hi & Hid & Hfirst)%list_find_Some Hid'.
  apply list_find_Some. split; [|split; [done|]].
  - apply list_lookup_insert_eq. by eapply lookup_lt_Some.
  - intros j y Hj Hlt. rewrite list_lookup_insert_ne in Hj by lia. by eapply Hfirst.
Qed.

(** After an update answered with 200, [get_note] returns the note the
    update answered with. *)
Theorem update_then_get (note_id : nat) (data : option dict) (st : store)
    (note' : Note.t) (st' : store) :
  update_note utcnow bind_text note_id data st = (Response (NoteBody note') 200, st') →
  get_note note_id st' = Response (NoteBody note') 200.
Proof.
  unfold update_note, commit_update, get_note. intros H.
  destruct (id_fits note_id); [|done].
  destruct (query_get note_id (rows st)) as [[i note]|] eqn:Hget; [|done].
  destruct data as [d|]; [|done]. case_bool_decide; [done|].
  destruct (_ || _); [|injection H as <- <-; by rewrite Hget].
  destruct (if bool_decide (_ ≠ JItem (IStr (Note.title note))) then _ else _) as [t|];
    [destruct (if bool_decide (_ ≠ JItem (IStr (Note.content note))) then _ else _)
       as [c|]|];
    [|done..].
  injection H as <- <-. simpl.
  erewrite query_get_insert; [done | exact Hget |]. simpl.
  by apply query_get_lookup in Hget as [_ ?].
Qed.

End Ids.

(** The store reached by two creates has two different ids. *)
Lemma reachable_unique_ids_witness :
  reachable clock10 strict_bind store_two_notes ∧ unique_ids store_two_notes.
Proof.
  assert (reachable clock10 strict_bind store_two_notes) as Hreach.
  { apply (reachable_step clock10 strict_bind (Create (Some body_without_tags))
             store_one_note).
    apply (reachable_step clock10 strict_bind (Create (Some body_with_tag_list))
             empty_store).
    apply reachable_empty. }
  split; [exact Hreach|].
  exact (reachable_unique_ids clock10 strict_bind store_two_notes Hreach).
Defined.

(** The second note created is found under its id, 2. *)
Lemma create_then_get_witness :
  get_note 2 store_two_notes = Response (NoteBody (Note.mk 2 "T" "C" "" 20 30)) 200.
Proof.
  apply (create_then_get clock10 strict_bind (Some body_without_tags) store_one_note
           (Note.mk 2 "T" "C" "" 20 30) store_two_notes).
  reflexivity.
Defined.

(** The note retitled "X" is what a later [get_note] shows. *)
Lemma update_then_get_witness :
  get_note 1 (update_note clock10 strict_bind 1 (Some body_title_X) store_two_notes).2
  = Response (NoteBody (Note.mk 1 "X" "C" "a,b,a" 0 40)) 200.
Proof.
  apply (update_then_get clock10 strict_bind 1 (Some body_title_X) store_two_notes
           (Note.mk 1 "X" "C" "a,b,a" 0 40)
           (update_note clock10 strict_bind 1 (Some body_title_X) store_two_notes).2).
  reflexivity.
Defined.

(** ** Delete and unknown ids *)

Section Delete.

(** On a table without repeated ids, the rows other than the found one
    have another id. *)
Lemma other_rows_other_id (l : list Note.t) (i j : nat) (note n : Note.t) :
  NoDup (Note.id <$> l) →
  l !! i = Some note → l !! j = Some n → i ≠ j → Note.id n ≠ Note.id note.
Proof.
  intros Hnd Hi Hj Hne Heq. apply Hne.
  eapply NoDup_lookup; [exact Hnd | |]; rewrite list_lookup_fmap.
  - by rewrite Hi.
  - rewrite Hj. simpl. by rewrite Heq.
Qed.

Lemma elem_of_delete_lookup (l : list Note.t) (i : nat) (n : Note.t) :
  n ∈ delete i l ↔ ∃ j, j ≠ i ∧ l !! j = Some n.
Proof.
  rewrite list_elem_of_lookup. split.
  - intros [j Hj]. destruct (decide (j < i)) as [Hlt | Hge].
    + rewrite list_lookup_delete_lt in Hj by done. exists j. split; [lia | done].
    + rewrite list_lookup_delete_ge in Hj by lia. exists (S j). split; [lia | done].
  - intros (j & Hne & Hj). destruct (decide (j < i)) as [Hlt | Hge].
    + exists j. by rewrite list_lookup_delete_lt.
    + destruct j as [|j]; [lia|]. exists j. rewrite list_lookup_delete_ge by lia. done.
Qed.

(** A delete answered with 204 removes the note with that id and no
    other: afterwards the table holds exactly the notes with another id,
    and [get_note] for the deleted id answers 404. *)
Theorem delete_removes_that_note (note_id : nat) (st : store) (resp : response)
    (st' : store) :
  unique_ids st →
  delete_note note_id st = (resp, st') →
  status resp = 204 →
  (∀ n, n ∈ rows st' ↔ n ∈ rows st ∧ Note.id n ≠ note_id)
  ∧ get_note note_id st' = Response (ErrorPage "Not Found" not_found_description) 404.
Proof.
  unfold unique_ids, delete_note. intros Hnd H Hstatus.
  destruct (id_fits note_id) eqn:Hfits; [|by injection H as <- <-].
  destruct (query_get note_id (rows st)) as [[i note]|] eqn:Hget;
    [|by injection H as <- <-].
  injection H as <- <-. simpl. apply query_get_lookup in Hget as [Hi Hid].
  assert (∀ n, n ∈ delete i (rows st) ↔ n ∈ rows st ∧ Note.id n ≠ note_id) as Hrows.
  { intros n. rewrite elem_of_delete_lookup. split.
    - intros (j & Hne & Hj). split; [by eapply list_elem_of_lookup_2|].
      rewrite <- Hid. eapply other_rows_other_id; eauto.
    - intros [[j Hj]%list_elem_of_lookup Hne]. exists j. split; [|done].
      intros ->. rewrite Hi in Hj. injection Hj as <-. done. }
  split; [done|]. unfold get_note, query_get. rewrite Hfits. simpl.
  assert (list_find (λ n, Note.id n = note_id) (delete i (rows st)) = None) as ->; [|done].
  apply list_find_None, Forall_forall. intros n Hn%Hrows. tauto.
Qed.

(** For an id below 2^63 that the table does not hold, [get_note] answers
    with the 404 page, while [update_note] and [delete_note], whose lookup
    sits inside their [try], answer 500 with the text of the NotFound error.
    For an id of 2^63 or more, whatever the table holds, [get_note] answers
    with the 500 page and the other two with 500 and the text of the
    OverflowError.  The store stays as it was. *)
Theorem unknown_id_responses (utcnow : nat → nat) (bind_text : json → outcome string)
    (note_id : nat) (data : option dict) (st : store) :
  (∀ n, n ∈ rows st → Note.id n ≠ note_id) →
  (id_fits note_id = true →
   get_note note_id st = Response (ErrorPage "Not Found" not_found_description) 404
   ∧ update_note utcnow bind_text note_id data st
     = (Response (ErrorBody not_found_text) 500, st)
   ∧ delete_note note_id st = (Response (ErrorBody not_found_text) 500, st))
  ∧ (id_fits note_id = false →
     get_note note_id st
     = Response (ErrorPage "Internal Server Error" internal_error_description) 500
     ∧ update_note utcnow bind_text note_id data st
       = (Response (ErrorBody overflow_text) 500, st)
     ∧ delete_note note_id st = (Response (ErrorBody overflow_text) 500, st)).
Proof.
  intros Hnone.
  assert (query_get note_id (rows st) = None) as Hget.
  { apply list_find_None, Forall_forall. intros n Hn. by apply Hnone. }
  unfold get_note, update_note, delete_note.
  split; intros ->; by rewrite ?Hget.
Qed.

End Delete.

(** Deleting note 1 of two leaves note 2, and note 1 is gone. *)
Lemma delete_removes_that_note_witness :
  (∀ n, n ∈ rows (delete_note 1 store_two_notes).2
        ↔ n ∈ rows store_two_notes ∧ Note.id n ≠ 1)
  ∧ get_note 1 (delete_note 1 store_two_notes).2
    = Response (ErrorPage "Not Found" not_found_description) 404.
Proof.
  apply (delete_removes_that_note 1 store_two_notes
           (delete_note 1 store_two_notes).1 (delete_note 1 store_two_notes).2).
  - unfold unique_ids. vm_compute. apply NoDup_cons. split.
    + intros [H | H]%elem_of_cons; [discriminate H | by apply elem_of_nil in H].
    + apply NoDup_singleton.
  - reflexivity.
  - reflexivity.
Defined.

(** Id 7 on a table that holds ids 1 and 2. *)
Lemma unknown_id_responses_witness :
  get_note 7 store_two_notes = Response (ErrorPage "Not Found" not_found_description) 404
  ∧ update_note clock10 strict_bind 7 (Some body_title_X) store_two_notes
    = (Response (ErrorBody not_found_text) 500, store_two_notes)
  ∧ delete_note 7 store_two_notes
    = (Response (ErrorBody not_found_text) 500, store_two_notes).
Proof.
  apply (unknown_id_responses clock10 strict_bind 7 (Some body_title_X) store_two_notes);
    [|reflexivity].
  intros n Hn. vm_compute in Hn.
  apply elem_of_cons in Hn as [-> | Hn]; [simpl; lia|].
  apply elem_of_cons in Hn as [-> | Hn]; [simpl; lia|].
  by apply elem_of_nil in Hn.
Defined.

(** ** The note touched last comes first *)

Section NewestFirst.

Variable utcnow : nat → nat.
Variable bind_text : json → outcome string.

Lemma touched_later (st st' : store) (note : Note.t) :
  ticks st ≤ ticks st' → touched utcnow st note → touched utcnow st' note.
Proof. intros Hle (k & Hk & Hup). exists k. split; [lia | done]. Qed.

Lemma Forall_touched_later (st st' : store) (l : list Note.t) :
  ticks st ≤ ticks st' → Forall (touched utcnow st) l → Forall (touched utcnow st') l.
Proof.
  intros Hle Hl. eapply Forall_impl; [exact Hl|]. intros note. by apply touched_later.
Qed.

Lemma handle_touched (req : request) (st : store) :
  Forall (touched utcnow st) (rows st) →
  Forall (touched utcnow (handle utcnow bind_text req st).2)
         (rows (handle utcnow bind_text req st).2).
Proof.
  intros Hinv. destruct req as [data | note_id data | note_id]; simpl.
  - unfold create_note, insert_note. destruct data as [d|]; [|done].
    destruct (d !! "title"), (d !! "content"); try done.
    destruct (bind_text _); [destruct (bind_text _); [destruct (new_rowid _)|]|]; simpl;
      try (eapply Forall_touched_later; [|exact Hinv]; simpl; lia).
    apply Forall_app. split.
    + eapply Forall_touched_later; [|exact Hinv]. simpl. lia.
    + apply Forall_singleton. exists (S (ticks st)). simpl. split; [lia | done].
  - unfold update_note, commit_update. destruct (id_fits note_id); [|done].
    destruct (query_get note_id (rows st)) as [[i note]|]; [|done].
    destruct data as [d|]; [|done]. case_bool_decide; [done|].
    destruct (_ || _); [|done].
    destruct (if bool_decide (_ ≠ JItem (IStr (Note.title note))) then _ else _);
      [destruct (if bool_decide (_ ≠ JItem (IStr (Note.content note))) then _ else _)|];
      simpl; try (eapply Forall_touched_later; [|exact Hinv]; simpl; lia).
    rewrite Forall_forall in Hinv. apply Forall_forall.
    intros n [-> | Hn]%elem_of_insert_inv.
    + exists (ticks st). simpl. split; [lia | done].
    + apply (touched_later st); [simpl; lia | by apply Hinv].
  - unfold delete_note. destruct (id_fits note_id); [|done].
    destruct (query_get note_id (rows st)) as [[i note]|]; [|done]. simpl.
    rewrite Forall_forall in Hinv. apply Forall_forall.
    intros n Hn%list_elem_of_delete_inv.
    apply (touched_later st); [done | by apply Hinv].
Qed.

Lemma reachable_touched (st : store) :
  reachable utcnow bind_text st → Forall (touched utcnow st) (rows st).
Proof.
  induction 1 as [|req st _ IH]; [constructor|]. by apply handle_touched.
Qed.

(** A row more recent than every other row heads the sorted list. *)
Lemma newest_heads (l : list Note.t) (x : Note.t) :
  x ∈ l →
  (∀ y, y ∈ l → y = x ∨ Note.updated_at y < Note.updated_at x) →
  ∃ others, order_by_updated_desc l = x :: others.
Proof.
  intros Hx Hnewest.
  pose proof (order_by_sorted l) as Hsorted.
  assert (∀ y, y ∈ order_by_updated_desc l ↔ y ∈ l) as Hmem
    by (intros y; apply elem_of_order_by).
  destruct (order_by_updated_desc l) as [|h others].
  { apply Hmem in Hx. by apply elem_of_nil in Hx. }
  apply StronglySorted_inv in Hsorted as [_ Hhead]. rewrite Forall_forall in Hhead.
  destruct (Hnewest h) as [-> | Hlt]; [apply Hmem; by left | by exists others |].
  apply Hmem, elem_of_cons in Hx as [-> | Hx]; [lia|].
  apply Hhead in Hx. unfold updated_desc in Hx. lia.
Qed.

(** The clock moves between any two readings. *)
Hypothesis utcnow_strict : ∀ j k, j < k → utcnow j < utcnow k.

(** After a create, [get_notes] lists the new note first. *)
Theorem created_note_listed_first (data : option dict) (st : store) (note : Note.t)
    (st' : store) :
  reachable utcnow bind_text st →
  create_note utcnow bind_text data st = (Response (NoteBody note) 201, st') →
  ∃ others, get_notes st' = Response (NotesBody (note :: others)) 200.
Proof.
  intros Hreach H. apply reachable_touched in Hreach as Hinv.
  rewrite Forall_forall in Hinv. apply create_note_created in H
    as (d & title & content & _ & _ & _ & _ & _ & _ & _ & _ & Hup & ->).
  unfold get_notes. simpl.
  destruct (newest_heads (rows st ++ [note]) note) as [others ->]; [| |by exists others].
  - apply elem_of_app. right. by left.
  - intros y [Hy | Hy%list_elem_of_singleton]%elem_of_app; [|by left]. right.
    destruct (Hinv y Hy) as (k & Hk & ->). rewrite Hup. apply utcnow_strict. lia.
Qed.

(** After an update that changed the note, [get_notes] lists it first. *)
Theorem updated_note_listed_first (note_id : nat) (d : dict) (st : store) (i : nat)
    (note note' : Note.t) (st' : store) :
  reachable utcnow bind_text st →
  query_get note_id (rows st) = Some (i, note) →
  update_note utcnow bind_text note_id (Some d) st = (Response (NoteBody note') 200, st') →
  note' ≠ note →
  ∃ others, get_notes st' = Response (NotesBody (note' :: others)) 200.
Proof.
  intros Hreach Hget H Hne. apply reachable_touched in Hreach as Hinv.
  rewrite Forall_forall in Hinv. unfold update_note, commit_update in H.
  rewrite Hget in H. apply query_get_lookup in Hget as [Hi _].
  destruct (id_fits note_id); [|done].
  case_bool_decide; [done|].
  destruct (_ || _); [|injection H as <- <-; done].
  destruct (if bool_decide (_ ≠ JItem (IStr (Note.title note))) then _ else _) as [t|];
    [destruct (if bool_decide (_ ≠ JItem (IStr (Note.content note))) then _ else _)
       as [c|]|];
    [|done..].
  injection H as <- <-. unfold get_notes. simpl.
  match goal with
  | |- ∃ others, Response (NotesBody (order_by_updated_desc ?l)) 200
                 = Response (NotesBody (?x :: others)) 200 =>
      destruct (newest_heads l x) as [others ->]; [| |by exists others]
  end.
  - apply list_elem_of_insert. by eapply lookup_lt_Some.
  - intros y [-> | Hy]%elem_of_insert_inv; [by left|]. right.
    destruct (Hinv y Hy) as (k & Hk & ->). simpl. apply utcnow_strict. lia.
Qed.

End NewestFirst.

Lemma clock10_strict (j k : nat) : j < k → clock10 j < clock10 k.
Proof. unfold clock10. lia. Qed.

Lemma reachable_store_one_note : reachable clock10 strict_bind store_one_note.
Proof.
  apply (reachable_step clock10 strict_bind (Create (Some body_with_tag_list)) empty_store).
  apply reachable_empty.
Qed.

Lemma reachable_store_two_notes : reachable clock10 strict_bind store_two_notes.
Proof.
  apply (reachable_step clock10 strict_bind (Create (Some body_without_tags))
           store_one_note).
  apply reachable_store_one_note.
Qed.

(** The second note created heads the list. *)
Lemma created_note_listed_first_witness :
  ∃ others,
    get_notes store_two_notes
    = Response (NotesBody (Note.mk 2 "T" "C" "" 20 30 :: others)) 200.
Proof.
  apply (created_note_listed_first clock10 strict_bind clock10_strict
           (Some body_without_tags) store_one_note (Note.mk 2 "T" "C" "" 20 30)
           store_two_notes reachable_store_one_note).
  reflexivity.
Defined.

(** Note 1, the older of two, heads the list once it is retitled. *)
Lemma updated_note_listed_first_witness :
  ∃ others,
    get_notes (update_note clock10 strict_bind 1 (Some body_title_X) store_two_notes).2
    = Response (NotesBody (Note.mk 1 "X" "C" "a,b,a" 0 40 :: others)) 200.
Proof.
  apply (updated_note_listed_first clock10 strict_bind clock10_strict 1 body_title_X
           store_two_notes 0 (Note.mk 1 "T" "C" "a,b,a" 0 10)
           (Note.mk 1 "X" "C" "a,b,a" 0 40)
           (update_note clock10 strict_bind 1 (Some body_title_X) store_two_notes).2
           reachable_store_two_notes).
  - reflexivity.
  - reflexivity.
  - discriminate.
Defined.

(** * Further properties of search and of the tag filter *)

(** ** Trimming *)

Section Strip.

Lemma rev_app_spec (s t : string) : String.rev_app s t = String.rev s +:+ t.
Proof.
  revert t. induction s as [|a s IH]; intros t; [done|].
  unfold String.rev. simpl. rewrite (IH (String a t)), (IH (String a "")).
  by rewrite app_assoc_str.
Qed.

Lemma rev_cons a (s : string) : String.rev (String a s) = String.rev s +:+ String a "".
Proof. unfold String.rev at 1. simpl. apply rev_app_spec. Qed.

Lemma rev_append (s t : string) : String.rev (s +:+ t) = String.rev t +:+ String.rev s.
Proof.
  induction s as [|a s IH]; [by rewrite app_empty_l, app_empty_r|].
  by rewrite app_cons, !rev_cons, IH, app_assoc_str.
Qed.

Lemma rev_involutive (s : string) : String.rev (String.rev s) = s.
Proof.
  induction s as [|a s IH]; [done|]. by rewrite rev_cons, rev_append, IH.
Qed.

(** [lstrip] removes a prefix. *)
Lemma lstrip_suffix (s : string) : ∃ p, s = p +:+ Str.lstrip s.
Proof.
  induction s as [|a s [p IH]]; [by exists ""|]. simpl.
  destruct (Str.isspace a); [|by exists ""].
  exists (String a p). by rewrite app_cons, <- IH.
Qed.

Lemma lstrip_idem (s : string) : Str.lstrip (Str.lstrip s) = Str.lstrip s.
Proof.
  induction s as [|a s IH]; [done|]. simpl.
  destruct (Str.isspace a) eqn:Ha; [done|]. simpl. by rewrite Ha.
Qed.

Lemma length_append (s t : string) :
  String.length (s +:+ t) = String.length s + String.length t.
Proof. induction s as [|a s IH]; [done|]. rewrite app_cons. simpl. by rewrite IH. Qed.

(** A string that [lstrip] leaves alone does not start with a space, and
    neither does a non-empty prefix of it. *)
Lemma lstrip_fixed_prefix (r q : string) :
  Str.lstrip (r +:+ q) = r +:+ q → Str.lstrip r = r.
Proof.
  destruct r as [|a r]; [done|]. rewrite app_cons. simpl.
  destruct (Str.isspace a); [|done]. intros Heq.
  destruct (lstrip_suffix (r +:+ q)) as [p Hp]. rewrite Heq in Hp.
  apply (f_equal String.length) in Hp. rewrite !length_append in Hp. simpl in Hp.
  rewrite length_append in Hp. lia.
Qed.

(** Trimming a trimmed string changes nothing. *)
Lemma strip_idem (s : string) : Str.strip (Str.strip s) = Str.strip s.
Proof.
  unfold Str.strip, Str.rstrip.
  set (a := Str.lstrip s). set (b := Str.lstrip (String.rev a)).
  assert (Str.lstrip (String.rev b) = String.rev b) as Hleft.
  { destruct (lstrip_suffix (String.rev a)) as [p Hp]. fold b in Hp.
    apply (f_equal String.rev) in Hp. rewrite rev_involutive, rev_append in Hp.
    apply (lstrip_fixed_prefix _ (String.rev p)). rewrite <- Hp. apply lstrip_idem. }
  rewrite Hleft, rev_involutive. unfold b. by rewrite lstrip_idem.
Qed.

End Strip.

(** ** The requested tags *)

(** Every tag the filter works with is non-empty and has no whitespace
    at either end. *)
Theorem requested_tags_trimmed (tag : list string) (tags_param : option string)
    (t : string) :
  t ∈ requested_tags tag tags_param → t ≠ "" ∧ Str.strip t = t.
Proof.
  rewrite requested_tags_spec. unfold spec_requested_tags.
  set (l := filter _ _).
  assert (∀ u, u ∈ l → u ≠ "" ∧ Str.strip u = u) as Hl.
  { intros u [Hne (v & -> & _)%list_elem_of_fmap]%list_elem_of_filter.
    split; [done | apply strip_idem]. }
  clearbody l. induction l as [|u l IH]; simpl; [by intros ?%elem_of_nil|].
  intros [-> | [_ Ht]%list_elem_of_filter]%elem_of_cons.
  - apply Hl. by left.
  - apply IH; [|done]. intros v Hv. apply Hl. by right.
Qed.

(** The tag [" Art "] of a request is used as ["Art"]. *)
Lemma requested_tags_trimmed_witness :
  "Art" ∈ requested_tags [" Art "; "art"] (Some " x ,, ") ∧ "Art" ≠ "" ∧ Str.strip "Art" = "Art".
Proof.
  assert ("Art" ∈ requested_tags [" Art "; "art"] (Some " x ,, ")) as Hin.
  { vm_compute. by left. }
  split; [exact Hin|].
  exact (requested_tags_trimmed [" Art "; "art"] (Some " x ,, ") "Art" Hin).
Defined.

(** The combined parameter is read as more values of the repeated one:
    [?tag=a&tags=b,c] asks for the same tags as [?tag=a&tag=b&tag=c]. *)
Theorem tags_param_as_repeated_tag (tag : list string) (p : string) :
  requested_tags tag (Some p) = requested_tags (tag ++ Str.split "," p) None.
Proof.
  rewrite !requested_tags_spec. unfold spec_requested_tags. simpl.
  by rewrite app_nil_r.
Qed.

(** ** Exact matching when the input has no wildcard *)




(** * Further properties of the stored tags *)

(** A [tags] entry that is neither a list nor a string is stored as the
    trimmed text [str()] gives for it, so JSON null is stored as the word
    "None"; a list that holds only nulls is stored as the empty string. *)
Theorem create_tags_null (utcnow : nat → nat) (bind_text : json → outcome string)
    (d : dict) (st : store) (note : Note.t) (st' : store) :
  create_note utcnow bind_text (Some d) st = (Response (NoteBody note) 201, st') →
  (d !! "tags" = Some (JItem INone) → Note.tags note = "None")
  ∧ (∀ text, d !! "tags" = Some (JItem (IOther text)) → Note.tags note = Str.strip text)
  ∧ (∀ l, d !! "tags" = Some (JList l) → Forall (λ t, t = INone) l → Note.tags note = "").
Proof.
  intros H. apply create_note_created in H
    as (d' & title & content & [= <-] & _ & _ & _ & _ & -> & _).
  split; [by intros ->|]. split; [by intros text ->|].
  intros l -> Hl. simpl.
  assert (filter (λ t, t ≠ INone) l = []) as ->; [|done].
  induction Hl as [|t l -> _ IH]; [done|].
  rewrite filter_cons_False; [done|]. by intros Hne.
Qed.

Lemma create_tags_null_witness :
  ∃ note st',
    create_note clock10 strict_bind (Some body_with_null_tags) empty_store
    = (Response (NoteBody note) 201, st')
    ∧ Note.tags note = "None".
Proof.
  eexists _, _. split; [reflexivity|].
  exact (proj1 (create_tags_null clock10 strict_bind body_with_null_tags empty_store
                  _ _ eq_refl) eq_refl).
Defined.

(** * Further properties of the auth routes *)

Section AuthFacts.

Variable user_model : outcome user_class.
Variable check_password_hash : option string → string → outcome bool.
Variable create_user : string → option string → string → list User → outcome User.


(** [login] answers 200 only for a user it found whose password check
    accepted the password. *)
Theorem login_success_checked (username password : option string) (users : list User) :
  auth_status (login user_model check_password_hash username password users).1 = 200 →
  ∃ name pw cls user,
    username = Some name ∧ password = Some pw
    ∧ user_model = Returns cls
    ∧ find_user cls name users = Some user
    ∧ (verify check_password_hash user pw).2 = Valid true.
Proof.
  unfold login. destruct username as [name|], password as [pw|]; try done.
  destruct (negb (Str.truthy name) || negb (Str.truthy pw)); [done|].
  destruct user_model as [cls|]; [|done].
  destruct (find_user cls name users) as [user|] eqn:Hfind; [|done].
  destruct (verify check_password_hash user pw) as [ran [[]| |]] eqn:Hv; try done.
  intros _. exists name, pw, cls, user. by rewrite Hv.
Qed.

(** [register] changes the table only by appending the one row that was
    created and committed.  It answers 201 when the [to_dict] of that row
    returns; when it raises, after the commit, the answer is 500 and the row
    stays.  In every other case the table is as it was and the answer is
    not 201. *)
Theorem register_adds_one_or_none (username email password : option string)
    (users : list User) :
  let run := register user_model create_user username email password users in
  (∃ name pw user,
      username = Some name ∧ password = Some pw
      ∧ create_user name email pw users = Returns user
      ∧ run.2 = users ++ [user]
      ∧ match u_to_dict user with
        | Returns info => run.1 = AuthResponse (AuthOk "User created" info) 201
        | Raises msg =>
            run.1 = AuthResponse (AuthError "Failed to create user" (Some msg)) 500
        end)
  ∨ (auth_status run.1 ≠ 201 ∧ run.2 = users).
Proof.
  unfold register. destruct username as [name|], password as [pw|]; try (by right).
  destruct (negb (Str.truthy name) || negb (Str.truthy pw)); [by right|].
  destruct user_model as [cls|]; [|by right].
  destruct (existing_user cls name email users) as [[found|]|]; try (by right).
  destruct (create_user name email pw users) as [user|] eqn:Hc; [|by right].
  left. exists name, pw, user. by destruct (u_to_dict user).
Qed.

End AuthFacts.


Lemma login_success_checked_witness :
  ∃ name pw cls user,
    Some "alice" = Some name ∧ Some "secret" = Some pw
    ∧ Returns full_class = Returns cls
    ∧ find_user cls name [alice] = Some user
    ∧ (verify sample_check_hash user pw).2 = Valid true.
Proof.
  apply (login_success_checked (Returns full_class) sample_check_hash
           (Some "alice") (Some "secret") [alice]).
  reflexivity.
Defined.

(** ** Lookup of the user *)

Lemma head_filter_Some (P : User → Prop) `{!∀ u, Decision (P u)}
    (users : list User) (u : User) :
  head (filter P users) = Some u → u ∈ users ∧ P u.
Proof.
  intros Hhead. assert (u ∈ filter P users) as Hin.
  { destruct (filter P users); [done|]. injection Hhead as ->. by left. }
  apply list_elem_of_filter in Hin. tauto.
Qed.

Lemma head_filter_None (P : User → Prop) `{!∀ u, Decision (P u)}
    (users : list User) (v : User) :
  head (filter P users) = None → v ∈ users → ¬ P v.
Proof.
  intros Hhead Hv HP. destruct (head_filter_elem_of P users v Hv HP) as [u Hu].
  congruence.
Qed.

(** [login] looks the name up among the usernames first and among the
    emails only when no username matches: the user found has the name as
    username, or has it as email while nobody has it as username; and no
    user is found only when nobody has it in a column the class has. *)
Theorem find_user_username_first (cls : user_class) (name : string) (users : list User) :
  match find_user cls name users with
  | Some u =>
      u ∈ users
      ∧ ((has_username cls = true ∧ u_username u = Some name)
         ∨ (has_email cls = true ∧ u_email u = Some name
            ∧ (has_username cls = true → ∀ v, v ∈ users → u_username v ≠ Some name)))
  | None =>
      ∀ v, v ∈ users →
           (has_username cls = true → u_username v ≠ Some name)
           ∧ (has_email cls = true → u_email v ≠ Some name)
  end.
Proof.
  unfold find_user, first_by.
  destruct (has_username cls) eqn:Hun.
  - destruct (head (filter (λ u, u_username u = Some name) users)) as [u|] eqn:Hu.
    + apply head_filter_Some in Hu as [Hin Hname]. split; [done|]. by left.
    + destruct (has_email cls) eqn:Hem.
      * destruct (head (filter (λ u, u_email u = Some name) users)) as [u|] eqn:He.
        -- apply head_filter_Some in He as [Hin Hmail]. split; [done|]. right.
           repeat split; [done|]. intros _ v Hv. by eapply head_filter_None in Hu.
        -- intros v Hv. split; intros _.
           ++ by eapply head_filter_None in Hu.
           ++ by eapply head_filter_None in He.
      * intros v Hv. split; [|done]. intros _. by eapply head_filter_None in Hu.
  - destruct (has_email cls) eqn:Hem.
    + destruct (head (filter (λ u, u_email u = Some name) users)) as [u|] eqn:He.
      * apply head_filter_Some in He as [Hin Hmail]. split; [done|]. right.
        by repeat split.
      * intros v Hv. split; [done|]. intros _. by eapply head_filter_None in He.
    + intros v Hv. by split.
Qed.

(** ** Registration *)

(** A registration that gives no email is refused with 400 as soon as
    some persisted user has no email either: the query compares the
    missing email with [email IS NULL]. *)
Theorem register_without_email_refused (user_model : outcome user_class)
    (create_user : string → option string → string → list User → outcome User)
    (cls : user_class) (name pw : string) (users : list User) (u : User) :
  name ≠ "" → pw ≠ "" →
  user_model = Returns cls →
  has_username cls = true → has_email cls = true →
  u ∈ users → u_email u = None →
  register user_model create_user (Some name) None (Some pw) users
  = (AuthResponse (AuthError "User with that username or email already exists" None) 400,
     users).
Proof.
  intros Hn%truthy_true Hp%truthy_true Hmodel Hun Hem Hin Hmail.
  unfold register. rewrite Hn, Hp, Hmodel. simpl.
  destruct (existing_user_found cls name None users u) as [found ->]; [done..| |done].
  right. by split.
Qed.

(** "dave", a new name, is refused because "carol" has no email. *)
Lemma register_without_email_refused_witness :
  register (Returns full_class) sample_create_user (Some "dave") None (Some "pw")
    [alice; carol]
  = (AuthResponse (AuthError "User with that username or email already exists" None) 400,
     [alice; carol]).
Proof.
  apply (register_without_email_refused (Returns full_class) sample_create_user
           full_class "dave" "pw" [alice; carol] carol); try done.
  right. by left.
Defined.

(** When the row that is created carries the username of the request,
    [register] keeps the usernames of the table different from each other. *)
Theorem register_keeps_usernames_unique (user_model : outcome user_class)
    (create_user : string → option string → string → list User → outcome User)
    (username email password : option string) (users : list User) :
  (∀ name mail pw l user,
      create_user name mail pw l = Returns user → u_username user = Some name) →
  NoDup (u_username <$> users) →
  NoDup (u_username <$> (register user_model create_user username email password users).2).
Proof.
  intros Hcreate Hnd. unfold register.
  destruct username as [name|], password as [pw|]; try done.
  destruct (negb (Str.truthy name) || negb (Str.truthy pw)); [done|].
  destruct user_model as [cls|]; [|done].
  destruct (existing_user cls name email users) as [[found|]|] eqn:Hex; try done.
  destruct (create_user name email pw users) as [user|] eqn:Hc; [|done].
  assert (NoDup (u_username <$> users ++ [user])) as Hadded;
    [|by destruct (u_to_dict user)].
  apply Hcreate in Hc. rewrite fmap_app. apply NoDup_app. split; [done|].
  split; [|apply NoDup_singleton].
  intros x (v & -> & Hv)%list_elem_of_fmap Hx. simpl in Hx.
  apply list_elem_of_singleton in Hx. rewrite Hc in Hx.
  unfold existing_user in Hex. destruct (has_username cls); [|done].
  destruct (has_email cls); injection Hex as Hex;
    eapply head_filter_None in Hex; try exact Hv; tauto.
Qed.

Lemma register_keeps_usernames_unique_witness :
  NoDup (u_username
           <$> (register (Returns full_class) sample_create_user
                  (Some "bob") (Some "bob@example.org") (Some "pw") [alice]).2).
Proof.
  apply (register_keeps_usernames_unique (Returns full_class) sample_create_user
           (Some "bob") (Some "bob@example.org") (Some "pw") [alice]).
  - intros name mail pw l user [= <-]. reflexivity.
  - apply NoDup_singleton.
Defined.

(** * Case of the query *)

Lemma lower_empty (s : string) : Sql.lower s = "" ↔ s = "".
Proof. unfold Sql.lower. destruct s; simpl; split; congruence. Qed.

Lemma ilike_pattern_case (column q1 q2 : string) :
  Sql.lower q1 = Sql.lower q2 →
  Sql.ilike column ("%" +:+ q1 +:+ "%") = Sql.ilike column ("%" +:+ q2 +:+ "%").
Proof.
  intros Heq. unfold Sql.ilike, Sql.lower in *. by rewrite !map_app, Heq.
Qed.

(** Two queries that differ only in the case of ASCII letters, or in the
    whitespace around them, get the same answer from [search_notes]. *)
Theorem search_case_insensitive (q1 q2 : option string) (st : store) :
  Sql.lower (Str.strip (default "" q1)) = Sql.lower (Str.strip (default "" q2)) →
  search_notes q1 st = search_notes q2 st.
Proof.
  intros Heq. unfold search_notes.
  destruct (Str.truthy (Str.strip (default "" q1))) eqn:H1.
  - assert (Str.truthy (Str.strip (default "" q2)) = true) as ->.
    { apply truthy_true. intros H2. rewrite H2 in Heq.
      apply (proj1 (lower_empty _)) in Heq. apply truthy_true in H1. by apply H1. }
    simpl. do 3 f_equal. apply list_filter_iff. intros n.
    by rewrite (ilike_pattern_case (Note.title n) _ _ Heq),
      (ilike_pattern_case (Note.content n) _ _ Heq).
  - assert (Str.truthy (Str.strip (default "" q2)) = false) as ->; [|done].
    apply truthy_false. apply truthy_false in H1. rewrite H1 in Heq.
    symmetry in Heq. by apply (proj1 (lower_empty _)) in Heq.
Qed.

(** "Art" and " ART " are the same search. *)
Lemma search_case_insensitive_witness :
  search_notes (Some "Art") store_two_notes = search_notes (Some " ART ") store_two_notes.
Proof.
  apply (search_case_insensitive (Some "Art") (Some " ART ") store_two_notes).
  reflexivity.
Defined.
